(** * Youmind question interface: response-completion detection,
      selector resolution and interaction helpers

    A shallow embedding of [scripts/ask_question.py], [scripts/config.py]
    and the [StealthUtils] helpers of [scripts/browser_utils.py], with the
    properties of the completion detector, the selector resolver and the
    click helper proved over it.

    Conventions of the embedding
    - a Python [str] is the list of its code points ([str := list N]);
    - a call into the browser (Playwright) is a field of the [Page] or
      [Element] record and returns [Res A]: a value or a raised exception;
    - printing, sleeping and input actions are recorded in an event log;
    - [time.time()] readings are supplied by the environment, in
      milliseconds. *)

From Stdlib Require Import ZArith QArith String Ascii.
From stdpp Require Import base decidable option list gmap.

Local Open Scope string_scope.
Local Open Scope list_scope.

(** ** Python strings *)

Module Py.

Definition str : Type := list N.

(** An ASCII literal of the source as a sequence of code points. *)
Definition lit (s : string) : str :=
  map N_of_ascii (list_ascii_of_string s).

(** Truth value of a string: [if s:]. *)
Definition truthy (s : str) : bool :=
  match s with
  | [] => false
  | _ :: _ => true
  end.

(** The characters [str.isspace] accepts, which [str.strip()] removes. *)
Definition is_space (c : N) : bool :=
  ((9 <=? c) && (c <=? 13) || (28 <=? c) && (c <=? 32)
   || (c =? 133) || (c =? 160) || (c =? 5760)
   || (8192 <=? c) && (c <=? 8202)
   || (c =? 8232) || (c =? 8233) || (c =? 8239) || (c =? 8287)
   || (c =? 12288))%N.

Fixpoint lstrip (s : str) : str :=
  match s with
  | [] => []
  | c :: s' => if is_space c then lstrip s' else s
  end.

Definition rstrip (s : str) : str := reverse (lstrip (reverse s)).

Definition strip (s : str) : str := rstrip (lstrip s).

(** [pre] is an initial segment of [s]. *)
Fixpoint startswith (s pre : str) : bool :=
  match pre, s with
  | [], _ => true
  | _ :: _, [] => false
  | c :: pre', d :: s' => bool_decide (c = d) && startswith s' pre'
  end.

(** [sub in s] on strings: [sub] occurs as a contiguous run of [s]. *)
Fixpoint contains (sub s : str) : bool :=
  startswith s sub ||
  match s with
  | [] => false
  | _ :: s' => contains sub s'
  end.

(** [collections.Counter(xs)]: the elements are counted front to back. *)
Definition Counter (xs : list str) : gmap str nat :=
  foldl (λ m x, <[x := S (default 0 (m !! x))]> m) ∅ xs.

(** [c[x]] on a Counter and [c.get(x, 0)]: absent keys count 0. *)
Definition count_of (c : gmap str nat) (x : str) : nat :=
  default 0 (c !! x).

(** Number of positions of [xs] holding [x] (reference notion). *)
Fixpoint occurrences (x : str) (xs : list str) : nat :=
  match xs with
  | [] => 0
  | y :: xs' => (if decide (y = x) then 1 else 0) + occurrences x xs'
  end.

End Py.

Import Py.

(** ** Exceptions and effects *)

(** Exceptions raised by browser calls: subclasses of [Exception], which
    is what every [except Exception] of the source catches. *)
Inductive exn : Type :=
| Exception (msg : string).

Inductive Res (A : Type) : Type :=
| Ok (a : A)
| Raise (e : exn).
Arguments Ok {A} a.
Arguments Raise {A} e.

#[global] Instance Res_ret : MRet Res := λ A a, Ok a.
#[global] Instance Res_bind : MBind Res := λ A B k m,
  match m with
  | Ok a => k a
  | Raise e => Raise e
  end.

(** [try: body / except Exception: handler]. *)
Definition try_except {A} (body : Res A) (handler : exn → Res A) : Res A :=
  match body with
  | Ok a => Ok a
  | Raise e => handler e
  end.

Definition raises {A} (r : Res A) : Prop :=
  match r with
  | Ok _ => False
  | Raise _ => True
  end.

(** ** Configuration ([config.py]) *)

Module Config.

Definition QUERY_INPUT_SELECTORS : list string :=
  [ "textarea[placeholder*='Ask']";
    "textarea[placeholder*='question']";
    "textarea[aria-label*='Ask']";
    "textarea[aria-label*='question']";
    "div[contenteditable='true'][role='textbox']";
    "div[contenteditable='true']" ].

Definition SEND_BUTTON_SELECTORS : list string :=
  [ "button[aria-label*='Send']";
    "button[data-testid*='send']";
    "button[class*='send']" ].

Definition RESPONSE_SELECTORS : list string :=
  [ "div.message-blocks";
    "div[class*='message-blocks']";
    "[class*='message-blocks']";
    "[data-message-author='assistant']";
    "[data-role='assistant']";
    "[data-testid*='assistant']";
    "div[class*='message']";
    "[class*='message']";
    ".assistant-message";
    ".message.ai";
    ".message-content" ].

Definition THINKING_SELECTORS : list string :=
  [ "div.thinking-message";
    "[data-testid*='thinking']" ].

Definition YOUMIND_BASE_URL : string := "https://youmind.com".

Definition YOUMIND_SIGN_IN_URL : string := YOUMIND_BASE_URL ++ "/sign-in".

Definition YOUMIND_BOARD_URL_PREFIX : string :=
  YOUMIND_BASE_URL ++ "/boards/".

End Config.

(** ** The browser as seen by the scripts *)

Record Box : Type := {
  box_x : Q;
  box_y : Q;
  box_width : Q;
  box_height : Q
}.

(** An element handle: the outcome of each call the scripts make on it. *)
Record Element : Type := {
  inner_text : Res str;
  is_visible : Res bool;
  bounding_box : Res (option Box);
  click : Res unit;
  type_char : N → Res unit
}.

(** A page at one instant. *)
Record Page : Type := {
  url : str;
  query_selector : string → Res (option Element);
  query_selector_all : string → Res (list Element);
  wait_for_selector : string → Res (option Element);
  mouse_move : Q → Q → Res unit;
  keyboard_press : string → Res unit
}.

(** ** Observable effects *)

Inductive Message : Type :=
| MsgNotAuthenticated
| MsgAsking (question : str)
| MsgBoard (board_url : str)
| MsgOpeningBoard
| MsgRedirectedToSignIn
| MsgNoChatInput
| MsgFoundChatInput (selector : string)
| MsgSubmitting
| MsgWaiting
| MsgGotAnswer
| MsgTimeout
| MsgError (e : exn)
| MsgTypingElementNotFound (selector : string).

Inductive Event : Type :=
| EvPrint (m : Message)
| EvSleep (ms : Z)
| EvRandomDelay (min_ms max_ms : Z)
| EvGoto (target : str)
| EvMouseMove (x y : Q)
| EvClick
| EvTypeChar (c : N) (min_delay max_delay : Z)
| EvKeyPress (key : string)
| EvCloseContext
| EvStopPlaywright.

(** A computation that logs events and then returns or raises. *)
Definition Run (A : Type) : Type := (list Event * Res A)%type.

#[global] Instance Run_ret : MRet Run := λ A a, ([], Ok a).
#[global] Instance Run_bind : MBind Run := λ A B k m,
  match m with
  | (log, Ok a) => let '(log', r) := k a in (log ++ log', r)
  | (log, Raise e) => (log, Raise e)
  end.

Definition emit (ev : Event) : Run unit := ([ev], Ok tt).

Definition call {A} (r : Res A) : Run A := ([], r).

Definition try_run {A} (body : Run A) (handler : exn → Run A) : Run A :=
  match body with
  | (log, Ok a) => (log, Ok a)
  | (log, Raise e) => let '(log', r) := handler e in (log ++ log', r)
  end.

(** ** [StealthUtils] ([browser_utils.py]) *)

Module StealthUtils.

Definition random_delay (min_ms max_ms : Z) : Run unit :=
  emit (EvRandomDelay min_ms max_ms).

Definition _resolve_visible_element (page : Page) (selector : string)
  : Res (option Element) :=
  element ← query_selector page selector;
  let wait :=
    try_except (wait_for_selector page selector) (λ _, Ok None) in
  match element with
  | Some el =>
      match is_visible el with
      | Ok true => Ok (Some el)
      | Ok false => wait
      | Raise _ => Ok (Some el)
      end
  | None => wait
  end.

Definition realistic_click (page : Page) (selector : string) : Run bool :=
  element ← call (_resolve_visible_element page selector);
  match element with
  | None => mret false
  | Some element =>
      try_run
        (box ← call (bounding_box element);
         match box with
         | Some box =>
             let x := (box_x box + box_width box / 2)%Q in
             let y := (box_y box + box_height box / 2)%Q in
             emit (EvMouseMove x y);;
             call (mouse_move page x y)
         | None => mret tt
         end)
        (λ _, mret tt);;
      random_delay 80 220;;
      try_run
        (emit EvClick;;
         call (click element);;
         random_delay 80 220;;
         mret true)
        (λ _, mret false)
  end.

(** The typing loop; [hesitate i] tells whether the random draw after
    the [i]-th character fell below 0.04. *)
Fixpoint type_chars (element : Element) (hesitate : nat → bool)
    (min_delay max_delay : Z) (i : nat) (text : str) : Run unit :=
  match text with
  | [] => mret tt
  | char :: text' =>
      emit (EvTypeChar char min_delay max_delay);;
      call (type_char element char);;
      (if hesitate i then random_delay 80 250 else mret tt);;
      type_chars element hesitate min_delay max_delay (S i) text'
  end.

Definition human_type (page : Page) (hesitate : nat → bool)
    (selector : string) (text : str) (wpm_min wpm_max : Z) : Run unit :=
  element ← call (_resolve_visible_element page selector);
  match element with
  | None => emit (EvPrint (MsgTypingElementNotFound selector))
  | Some element =>
      try_run (emit EvClick;; call (click element)) (λ _, mret tt);;
      let min_delay := (60000 / (wpm_max * 5))%Z in
      let max_delay := (60000 / (wpm_min * 5))%Z in
      type_chars element hesitate min_delay max_delay 0 text
  end.

(** The loop [for _ in range(2)] of [random_mouse_movement] over the
    iterations still to run; [waypoint i] is the pair drawn in
    iteration [i]. *)
Fixpoint move_to_waypoints (page : Page) (waypoint : nat → Z * Z)
    (iterations : list nat) : Run unit :=
  match iterations with
  | [] => mret tt
  | i :: iterations' =>
      let x := inject_Z (fst (waypoint i)) in
      let y := inject_Z (snd (waypoint i)) in
      emit (EvMouseMove x y);;
      call (mouse_move page x y);;
      random_delay 50 180;;
      move_to_waypoints page waypoint iterations'
  end.

(** [start] is the first pair drawn. *)
Definition random_mouse_movement (page : Page) (start : Z * Z)
    (waypoint : nat → Z * Z) : Run unit :=
  try_run
    (let start_x := inject_Z (fst start) in
     let start_y := inject_Z (snd start) in
     emit (EvMouseMove start_x start_y);;
     call (mouse_move page start_x start_y);;
     move_to_waypoints page waypoint (seq 0 2))
    (λ _, mret tt).

End StealthUtils.

(** ** [ask_question.py] *)

Definition FOLLOW_UP_REMINDER : str :=
  [10; 10]%N ++
  lit "EXTREMELY IMPORTANT: Is that ALL you need to know? " ++
  lit "Before replying to the user, compare this answer with the original request. " ++
  lit "If details are missing, ask another comprehensive follow-up question and include full context.".

(** The inner loop of [_collect_responses] over the matched elements. *)
Fixpoint collect_texts (elements : list Element) (selector_texts : list str)
  : Res (list str) :=
  match elements with
  | [] => Ok selector_texts
  | el :: elements' =>
      raw ← inner_text el;
      let text := strip raw in
      collect_texts elements'
        (if truthy text then selector_texts ++ [text] else selector_texts)
  end.

(** The body of the [try] of [_collect_responses] for one selector. *)
Definition selector_texts_of (page : Page) (selector : string)
  : Res (list str) :=
  elements ← query_selector_all page selector;
  collect_texts elements [].

Fixpoint collect_responses_from (selectors : list string) (page : Page)
  : Res (list str) :=
  match selectors with
  | [] => Ok []
  | selector :: selectors' =>
      match selector_texts_of page selector with
      | Ok [] => collect_responses_from selectors' page
      | Ok selector_texts => Ok selector_texts
      | Raise _ => collect_responses_from selectors' page
      end
  end.

Definition _collect_responses (page : Page) : Res (list str) :=
  collect_responses_from Config.RESPONSE_SELECTORS page.

(** [any(node.is_visible() for node in nodes)]. *)
Fixpoint any_visible (nodes : list Element) : Res bool :=
  match nodes with
  | [] => Ok false
  | node :: nodes' =>
      v ← is_visible node;
      if v : bool then Ok true else any_visible nodes'
  end.

Fixpoint is_thinking_from (selectors : list string) (page : Page) : Res bool :=
  match selectors with
  | [] => Ok false
  | selector :: selectors' =>
      match nodes ← query_selector_all page selector; any_visible nodes with
      | Ok true => Ok true
      | Ok false => is_thinking_from selectors' page
      | Raise _ => is_thinking_from selectors' page
      end
  end.

Definition _is_thinking (page : Page) : Res bool :=
  is_thinking_from Config.THINKING_SELECTORS page.

Fixpoint find_input_selector_from (selectors : list string) (page : Page)
  : Res (option string) :=
  match selectors with
  | [] => Ok None
  | selector :: selectors' =>
      match wait_for_selector page selector with
      | Ok _ => Ok (Some selector)
      | Raise _ => find_input_selector_from selectors' page
      end
  end.

Definition _find_input_selector (page : Page) : Res (option string) :=
  find_input_selector_from Config.QUERY_INPUT_SELECTORS page.

(** *** The completion detector *)

(** What [ask_youmind] records before submitting the question. *)
Record Baseline : Type := {
  previous_responses : list str;
  previous_last_response : option str;
  previous_counts : gmap str nat
}.

Definition capture_baseline (responses : list str) : Baseline :=
  {| previous_responses := responses;
     previous_last_response := last responses;
     previous_counts := Counter responses |}.

(** [for text in reversed(responses)] with its [break], on the texts still
    to be visited. *)
Fixpoint first_increased (current_counts previous_counts : gmap str nat)
    (texts : list str) : option str :=
  match texts with
  | [] => None
  | text :: texts' =>
      if (count_of previous_counts text <? count_of current_counts text)%nat
      then Some text
      else first_increased current_counts previous_counts texts'
  end.

Definition primary_candidate (b : Baseline) (responses : list str)
  : option str :=
  let current_counts := Counter responses in
  first_increased current_counts (previous_counts b) (reverse responses).

(** The three conjuncts of the fallback test that follow
    [candidate is None]. *)
Definition fallback_applies (b : Baseline) (responses : list str) : bool :=
  match previous_last_response b with
  | Some previous_last =>
      truthy previous_last
      && bool_decide (last responses ≠ Some previous_last)
      && bool_decide (responses ≠ previous_responses b)
  | None => false
  end.

Definition fallback_candidate (b : Baseline) (responses : list str)
  : option str :=
  if fallback_applies b responses then last responses else None.

Definition find_candidate (b : Baseline) (responses : list str)
  : option str :=
  match responses with
  | [] => None
  | _ :: _ =>
      match primary_candidate b responses with
      | Some text => Some text
      | None => fallback_candidate b responses
      end
  end.

Record LoopState : Type := {
  stable_count : nat;
  last_text : option str
}.

Definition initial_state : LoopState :=
  {| stable_count := 0; last_text := None |}.

Inductive Step : Type :=
| Continue (st : LoopState)
| Return (answer : str).

(** The [if candidate:] block of the poll loop. *)
Definition stability_step (st : LoopState) (candidate : option str) : Step :=
  match candidate with
  | Some c =>
      if truthy c then
        if bool_decide (Some c = last_text st) then
          let n := S (stable_count st) in
          if (3 <=? n)%nat
          then Return (c ++ FOLLOW_UP_REMINDER)
          else Continue {| stable_count := n; last_text := last_text st |}
        else Continue {| stable_count := 1; last_text := Some c |}
      else Continue st
  | None => Continue st
  end.

(** One reading of the clock at the loop test and the page during that
    iteration. *)
Record Poll : Type := {
  poll_now : Z;
  poll_page : Page
}.

(** How a run stands when the recorded polls end. *)
Inductive Outcome : Type :=
| Returned (answer : option str)
| StillPolling.

Fixpoint poll_loop (b : Baseline) (deadline : Z) (polls : list Poll)
    (st : LoopState) : Run Outcome :=
  match polls with
  | [] => mret StillPolling
  | p :: polls' =>
      if (poll_now p <? deadline)%Z then
        responses ← call (_collect_responses (poll_page p));
        match stability_step st (find_candidate b responses) with
        | Return answer =>
            emit (EvPrint MsgGotAnswer);;
            mret (Returned (Some answer))
        | Continue st' =>
            thinking ← call (_is_thinking (poll_page p));
            (if thinking : bool
             then emit (EvSleep 800)
             else emit (EvSleep 800));;
            poll_loop b deadline polls' st'
        end
      else
        emit (EvPrint MsgTimeout);;
        mret (Returned None)
  end.

(** *** The session driver *)

(** Everything outside the script that one call of [ask_youmind] meets.
    [is_authenticated] is the answer of [AuthManager().is_authenticated()]
    ([auth_manager.py]); the next four fields are the outcomes of starting
    Playwright, launching the context, opening the page and navigating. *)
Record World : Type := {
  is_authenticated : bool;
  playwright_start : Res unit;
  launch_persistent_context : Res unit;
  new_page : Res unit;
  goto : Res unit;
  (** the page from the end of navigation until Enter is pressed *)
  loaded_page : Page;
  (** the page while the send buttons are tried *)
  submitted_page : Page;
  (** the random draws of [human_type] *)
  hesitations : nat → bool;
  (** [time.time()] when the deadline is computed *)
  time_at_submit : Z;
  (** the iterations of the poll loop, in order *)
  polls : list Poll
}.

(** The send-button fallback: the first selector whose click succeeds
    ends the loop; a failing or raising click moves on to the next. *)
Fixpoint click_send_from (selectors : list string) (page : Page) : Run unit :=
  match selectors with
  | [] => mret tt
  | send_selector :: selectors' =>
      clicked ← try_run (StealthUtils.realistic_click page send_selector)
                        (λ _, mret false);
      if clicked : bool then mret tt else click_send_from selectors' page
  end.

(** The test made on [page.url] right after navigation. *)
Definition redirected_to_sign_in (page : Page) : bool :=
  negb (contains (lit "youmind.com") (url page))
  || contains (lit "sign-in") (url page).

(** The body of the [try] of [ask_youmind]. *)
Definition ask_session (w : World) (question board_url : str) : Run Outcome :=
  call (playwright_start w);;
  call (launch_persistent_context w);;
  call (new_page w);;
  emit (EvPrint MsgOpeningBoard);;
  emit (EvGoto board_url);;
  call (goto w);;
  let page := loaded_page w in
  if redirected_to_sign_in page then
    emit (EvPrint MsgRedirectedToSignIn);;
    mret (Returned None)
  else
    responses ← call (_collect_responses page);
    let b := capture_baseline responses in
    input_selector ← call (_find_input_selector page);
    match input_selector with
    | Some (String _ _ as input_selector) =>
        emit (EvPrint (MsgFoundChatInput input_selector));;
        StealthUtils.realistic_click page input_selector;;
        StealthUtils.human_type page (hesitations w) input_selector question
          220 320;;
        emit (EvPrint MsgSubmitting);;
        emit (EvKeyPress "Enter");;
        call (keyboard_press page "Enter");;
        emit (EvSleep 600);;
        click_send_from Config.SEND_BUTTON_SELECTORS (submitted_page w);;
        emit (EvPrint MsgWaiting);;
        let deadline := (time_at_submit w + 120000)%Z in
        poll_loop b deadline (polls w) initial_state
    | _ =>
        emit (EvPrint MsgNoChatInput);;
        mret (Returned None)
    end.

(** The [finally] block: what was acquired is released once the function
    returns. *)
Definition finally_events (w : World) : list Event :=
  match playwright_start w with
  | Ok _ =>
      match launch_persistent_context w with
      | Ok _ => [EvCloseContext; EvStopPlaywright]
      | Raise _ => [EvStopPlaywright]
      end
  | Raise _ => []
  end.

Definition ask_youmind (w : World) (question board_url : str)
    (headless : bool) : list Event * Outcome :=
  if is_authenticated w then
    let intro := [EvPrint (MsgAsking question); EvPrint (MsgBoard board_url)] in
    match ask_session w question board_url with
    | (log, Ok StillPolling) => (intro ++ log, StillPolling)
    | (log, Ok (Returned answer)) =>
        (intro ++ log ++ finally_events w, Returned answer)
    | (log, Raise e) =>
        (intro ++ log ++ [EvPrint (MsgError e)] ++ finally_events w,
         Returned None)
    end
  else ([EvPrint MsgNotAuthenticated], Returned None).

(** An input action: what submitting a question consists of. *)
Definition is_input_event (ev : Event) : bool :=
  match ev with
  | EvMouseMove _ _ | EvClick | EvTypeChar _ _ _ | EvKeyPress _ => true
  | _ => false
  end.

Definition printed (m : Message) (log : list Event) : Prop :=
  In (EvPrint m) log.

(** ** [BrowserFactory] ([browser_utils.py]) *)

Module BrowserFactory.

(** A JSON document as [json.load] returns it. *)
#[warnings="-register-all"]
Inductive json : Type :=
| JNull
| JBool (b : bool)
| JNumber (q : Q)
| JString (s : str)
| JArray (items : list json)
| JObject (members : list (str * json)).

(** Truth value of a loaded document: [if cookies:]. *)
Definition json_truthy (j : json) : bool :=
  match j with
  | JNull => false
  | JBool b => b
  | JNumber q => negb (Qeq_bool q 0)
  | JString s => truthy s
  | JArray items => match items with [] => false | _ :: _ => true end
  | JObject members => match members with [] => false | _ :: _ => true end
  end.

(** Lookup in the dict built from the members of an object: of two
    members with one key the later one stands. *)
Fixpoint dict_get (members : list (str * json)) (key : str) : option json :=
  match members with
  | [] => None
  | (k, v) :: members' =>
      match dict_get members' key with
      | Some later => Some later
      | None => if decide (k = key) then Some v else None
      end
  end.

(** [state.get("cookies", [])]: only a dict has [get]. *)
Definition get_cookies (state : json) : Res json :=
  match state with
  | JObject members =>
      Ok (default (JArray []) (dict_get members (lit "cookies")))
  | _ => Raise (Exception "AttributeError: object has no attribute 'get'")
  end.

(** [STATE_FILE] as the script meets it: what [STATE_FILE.exists()]
    gives (it answers, or raises the [OSError] of the underlying [stat]
    that [Path.exists] does not take for an absent file, such as a
    permission error), and what opening and loading the file gives. *)
Record StateFile : Type := {
  state_exists : Res bool;
  state_load : Res json
}.

Record Context : Type := {
  add_cookies : json → Res unit
}.

Inductive FactoryEvent : Type :=
| FeAddCookies (cookies : json)
| FeCouldNotLoadState (e : exn).

Definition Logged (A : Type) : Type := (list FactoryEvent * Res A)%type.

Definition try_logged {A} (body : Logged A) (handler : exn → Logged A)
  : Logged A :=
  match body with
  | (log, Ok a) => (log, Ok a)
  | (log, Raise e) => let '(log', r) := handler e in (log ++ log', r)
  end.

(** The existence test stands before the [try]: what it raises leaves
    the function. *)
Definition _inject_cookies (file : StateFile) (context : Context)
  : Logged unit :=
  match state_exists file with
  | Raise e => ([], Raise e)
  | Ok false => ([], Ok tt)
  | Ok true =>
      try_logged
        (match state_load file with
         | Raise e => ([], Raise e)
         | Ok state =>
             match get_cookies state with
             | Raise e => ([], Raise e)
             | Ok cookies =>
                 if json_truthy cookies
                 then ([FeAddCookies cookies], add_cookies context cookies)
                 else ([], Ok tt)
             end
         end)
        (λ e, ([FeCouldNotLoadState e], Ok tt))
  end.

(** [launch] is the outcome of Playwright's own
    [launch_persistent_context]. *)
Definition launch_persistent_context (launch : Res Context)
    (file : StateFile) : Logged Context :=
  match launch with
  | Raise e => ([], Raise e)
  | Ok context =>
      match _inject_cookies file context with
      | (log, Ok _) => (log, Ok context)
      | (log, Raise e) => (log, Raise e)
      end
  end.

End BrowserFactory.

(** ** The command line ([ask_question.py]) *)

Module Cli.

(** An entry of the board library ([board_manager.py]). *)
Record Board : Type := {
  b_id : str;
  b_name : str;
  b_url : str
}.

(** What [_resolve_board_url] and [main] use of [BoardLibrary]. *)
Record BoardLibrary : Type := {
  get_board : str → option Board;
  get_active_board : option Board;
  list_boards : list Board;
  active_board_id : option str
}.

Inductive CliMessage : Type :=
| CliBoardNotFound (board_id : str)
| CliUsingActiveBoard (name : str)
| CliAvailableBoards (rows : list (str * str * bool))
| CliNoBoards
| CliUrlPrefixWarning
| CliFailedToGetAnswer
| CliAnswer (question answer : str)
| CliHelp
| CliUsageError.

Inductive CliEvent : Type :=
| Cli (m : CliMessage)
| Session (ev : Event).

Definition _resolve_board_url (library : BoardLibrary)
    (board_url board_id : option str) : list CliMessage * option str :=
  match board_url with
  | Some ((_ :: _) as board_url) => ([], Some board_url)
  | _ =>
      match board_id with
      | Some ((_ :: _) as board_id) =>
          match get_board library board_id with
          | None => ([CliBoardNotFound board_id], None)
          | Some board => ([], Some (b_url board))
          end
      | _ =>
          match get_active_board library with
          | Some active =>
              ([CliUsingActiveBoard (b_name active)], Some (b_url active))
          | None =>
              match list_boards library with
              | [] => ([CliNoBoards], None)
              | boards =>
                  ([CliAvailableBoards
                      (map (λ b, (b_id b, b_name b,
                                  bool_decide
                                    (Some (b_id b) = active_board_id library)))
                         boards)],
                   None)
              end
          end
      end
  end.

(** The parsed arguments. *)
Record Args : Type := {
  arg_question : str;
  arg_board_url : option str;
  arg_board_id : option str;
  arg_show_browser : bool
}.

(** What [parser.parse_args()] does with the command line: it hands the
    parsed arguments back, or it prints and leaves the program through
    [SystemExit], with status 0 after the help text ([-h], [--help]) and
    with status 2 after a usage error (no [--question], an option the
    parser does not know, an option without its value). *)
Inductive CommandLine : Type :=
| ParsedArgs (args : Args)
| HelpRequested
| UsageError.

(** The status the program exits with, [sys.exit(main())], be it the
    value [main] returns or the status [parse_args] leaves with; [None]
    when the recorded polls of the session end before [ask_youmind]
    returns. *)
Definition main (library : BoardLibrary) (w : World)
    (command_line : CommandLine) : list CliEvent * option Z :=
  match command_line with
  | HelpRequested => ([Cli CliHelp], Some 0%Z)
  | UsageError => ([Cli CliUsageError], Some 2%Z)
  | ParsedArgs args =>
      let '(messages, board_url) :=
        _resolve_board_url library (arg_board_url args) (arg_board_id args) in
      match board_url with
      | Some ((_ :: _) as board_url) =>
          let warning :=
            if startswith board_url (lit Config.YOUMIND_BOARD_URL_PREFIX)
            then []
            else [Cli CliUrlPrefixWarning] in
          let '(log, outcome) :=
            ask_youmind w (arg_question args) board_url
              (negb (arg_show_browser args)) in
          let before := map Cli messages ++ warning ++ map Session log in
          match outcome with
          | StillPolling => (before, None)
          | Returned (Some ((_ :: _) as answer)) =>
              (before ++ [Cli (CliAnswer (arg_question args) answer)],
               Some 0%Z)
          | Returned _ => (before ++ [Cli CliFailedToGetAnswer], Some 1%Z)
          end
      | _ => (map Cli messages, Some 1%Z)
      end
  end.

End Cli.

(** ** Example pages and sessions *)

Module Examples.

Definition timeout_error : exn := Exception "Timeout exceeded".
Definition context_destroyed : exn :=
  Exception "Execution context was destroyed".

Definition message_block (text : str) : Element :=
  {| inner_text := Ok text;
     is_visible := Ok true;
     bounding_box := Ok None;
     click := Ok tt;
     type_char := λ _, Ok tt |}.

Definition indicator (visible : bool) : Element :=
  {| inner_text := Ok [];
     is_visible := Ok visible;
     bounding_box := Ok None;
     click := Ok tt;
     type_char := λ _, Ok tt |}.

Definition input_box : Element :=
  {| inner_text := Ok [];
     is_visible := Ok true;
     bounding_box :=
       Ok (Some {| box_x := 10; box_y := 20;
                   box_width := 300; box_height := 40 |});
     click := Ok tt;
     type_char := λ _, Ok tt |}.

(** A board page at [address] showing [texts] as message blocks, a
    thinking indicator that is visible or not, and, when [with_input],
    the chat input. *)
Definition board_page (address : str) (texts : list str)
    (thinking with_input : bool) : Page :=
  {| url := address;
     query_selector := λ selector,
       if with_input && String.eqb selector "textarea[placeholder*='Ask']"
       then Ok (Some input_box) else Ok None;
     query_selector_all := λ selector,
       if String.eqb selector "div.message-blocks"
       then Ok (map message_block texts)
       else if String.eqb selector "div.thinking-message"
       then Ok [indicator thinking]
       else Ok [];
     wait_for_selector := λ selector,
       if with_input && String.eqb selector "textarea[placeholder*='Ask']"
       then Ok (Some input_box) else Raise timeout_error;
     mouse_move := λ _ _, Ok tt;
     keyboard_press := λ _, Ok tt |}.

(** A page in the middle of a navigation: every lookup raises. *)
Definition navigating_page : Page :=
  {| url := lit "https://youmind.com/boards/b1";
     query_selector := λ _, Raise context_destroyed;
     query_selector_all := λ _, Raise context_destroyed;
     wait_for_selector := λ _, Raise context_destroyed;
     mouse_move := λ _ _, Raise context_destroyed;
     keyboard_press := λ _, Raise context_destroyed |}.

(** A page whose first response selector matches only a blank block,
    and whose second matches an answer. *)
Definition layered_page : Page :=
  {| url := lit "https://youmind.com/boards/b1";
     query_selector := λ _, Ok None;
     query_selector_all := λ selector,
       if String.eqb selector "div.message-blocks"
       then Ok [message_block (lit "   ")]
       else if String.eqb selector "div[class*='message-blocks']"
       then Ok [message_block (lit "Answer A")]
       else Raise context_destroyed;
     wait_for_selector := λ _, Raise timeout_error;
     mouse_move := λ _ _, Ok tt;
     keyboard_press := λ _, Ok tt |}.

(** A block whose text cannot be read. *)
Definition detached_block : Element :=
  {| inner_text := Raise context_destroyed;
     is_visible := Raise context_destroyed;
     bounding_box := Raise context_destroyed;
     click := Raise context_destroyed;
     type_char := λ _, Raise context_destroyed |}.

(** A page whose only matching selector reads one answer and then meets
    a block that cannot be read. *)
Definition half_read_page : Page :=
  {| url := lit "https://youmind.com/boards/b1";
     query_selector := λ _, Ok None;
     query_selector_all := λ selector,
       if String.eqb selector "div.message-blocks"
       then Ok [message_block (lit "Answer A"); detached_block]
       else Ok [];
     wait_for_selector := λ _, Raise timeout_error;
     mouse_move := λ _ _, Ok tt;
     keyboard_press := λ _, Ok tt |}.

Definition board_url : str := lit "https://youmind.com/boards/b1".
Definition sign_in_url : str := lit "https://youmind.com/sign-in?next=b1".

(** Two addresses outside youmind.com: the first names it in its query. *)
Definition foreign_url : str := lit "https://example.org/?from=youmind.com".
Definition login_url : str := lit "https://accounts.example.org/login".

Definition showing (now : Z) (texts : list str) (thinking : bool) : Poll :=
  {| poll_now := now;
     poll_page := board_page board_url texts thinking true |}.

Definition session (address : str) (baseline : list str) (with_input : bool)
    (trace : list Poll) : World :=
  {| is_authenticated := true;
     playwright_start := Ok tt;
     launch_persistent_context := Ok tt;
     new_page := Ok tt;
     goto := Ok tt;
     loaded_page := board_page address baseline false with_input;
     submitted_page := board_page address baseline false with_input;
     hesitations := λ _, false;
     time_at_submit := 0;
     polls := trace |}.

Definition hi : str := lit "Hi there".
Definition working : str := lit "Working on it...".
Definition done_text : str := lit "Working on it... done".
Definition answer_a : str := lit "Answer A".

(** The scenario of the specification: the answer grows, then holds
    still for three polls. *)
Definition trace_settling : list Poll :=
  [ showing 800 [hi; working] true;
    showing 1600 [hi; working; done_text] true;
    showing 2400 [hi; working; done_text] false;
    showing 3200 [hi; working; done_text] false ].

(** The same page with the indicator shown at other polls. *)
Definition trace_settling_quiet : list Poll :=
  [ showing 800 [hi; working] false;
    showing 1600 [hi; working; done_text] false;
    showing 2400 [hi; working; done_text] true;
    showing 3200 [hi; working; done_text] false ].

(** Two polls see the new text, the third reads nothing (the blocks are
    being re-rendered), the fourth sees the new text again. *)
Definition trace_interrupted : list Poll :=
  [ showing 800 [hi; working] false;
    showing 1600 [hi; working] false;
    showing 2400 [] false;
    showing 3200 [hi; working] false ].

(** Two polls see a text that never settles, then the deadline passes. *)
Definition trace_unsettled : list Poll :=
  [ showing 800 [hi; working] true;
    showing 1600 [hi; working] true ].

Definition late_poll : Poll := showing 120000 [hi; working] true.

(** A board page showing [texts] that carries no thinking node at all
    or, when [raising], on which every lookup but that of the message
    blocks raises. *)
Definition plain_page (texts : list str) (raising : bool) : Page :=
  {| url := board_url;
     query_selector := λ _, Ok None;
     query_selector_all := λ selector,
       if String.eqb selector "div.message-blocks"
       then Ok (map message_block texts)
       else if raising then Raise context_destroyed else Ok [];
     wait_for_selector := λ _, Raise timeout_error;
     mouse_move := λ _ _, Ok tt;
     keyboard_press := λ _, Ok tt |}.

(** The texts of [trace_settling] on pages where the indicator is
    absent at the first poll, cannot be looked up at the second, and is
    visible at the last two. *)
Definition trace_settling_other_indicator : list Poll :=
  [ {| poll_now := 800; poll_page := plain_page [hi; working] false |};
    {| poll_now := 1600;
       poll_page := plain_page [hi; working; done_text] true |};
    showing 2400 [hi; working; done_text] true;
    showing 3200 [hi; working; done_text] true ].

(** A page whose pointer cannot be moved. *)
Definition frozen_pointer_page : Page :=
  {| url := lit "https://youmind.com/boards/b1";
     query_selector := λ _, Ok None;
     query_selector_all := λ _, Ok [];
     wait_for_selector := λ _, Raise timeout_error;
     mouse_move := λ _ _, Raise context_destroyed;
     keyboard_press := λ _, Ok tt |}.

(** A page with two thinking nodes under the first selector: the state
    of the first cannot be read, the second is visible. *)
Definition unreadable_indicator_page : Page :=
  {| url := lit "https://youmind.com/boards/b1";
     query_selector := λ _, Ok None;
     query_selector_all := λ selector,
       if String.eqb selector "div.thinking-message"
       then Ok [detached_block; indicator true]
       else Ok [];
     wait_for_selector := λ _, Raise timeout_error;
     mouse_move := λ _ _, Ok tt;
     keyboard_press := λ _, Ok tt |}.

(** A page that never changes, polled every 0.8 s for 151 polls. *)
Definition trace_idle : list Poll :=
  map (λ i, showing (800 * Z.of_nat i) [hi] false) (seq 0 151).

(** A page whose second send-button selector matches a clickable button
    and whose other lookups find nothing. *)
Definition page_with_send_button : Page :=
  {| url := lit "https://youmind.com/boards/b1";
     query_selector := λ selector,
       if String.eqb selector "button[data-testid*='send']"
       then Ok (Some input_box) else Ok None;
     query_selector_all := λ _, Ok [];
     wait_for_selector := λ _, Raise timeout_error;
     mouse_move := λ _ _, Ok tt;
     keyboard_press := λ _, Ok tt |}.

Definition session_cookie : BrowserFactory.json :=
  BrowserFactory.JObject
    [ (lit "name", BrowserFactory.JString (lit "sid"));
      (lit "value", BrowserFactory.JString (lit "abc"));
      (lit "domain", BrowserFactory.JString (lit ".youmind.com")) ].

(** A state file holding one cookie. *)
Definition state_with_cookie : BrowserFactory.StateFile :=
  {| BrowserFactory.state_exists := Ok true;
     BrowserFactory.state_load :=
       Ok (BrowserFactory.JObject
             [ (lit "cookies", BrowserFactory.JArray [session_cookie]);
               (lit "origins", BrowserFactory.JArray []) ]) |}.

(** A state file that holds a list instead of an object. *)
Definition state_not_an_object : BrowserFactory.StateFile :=
  {| BrowserFactory.state_exists := Ok true;
     BrowserFactory.state_load :=
       Ok (BrowserFactory.JArray [session_cookie]) |}.

(** A state file in a directory that cannot be searched. *)
Definition state_unreachable : BrowserFactory.StateFile :=
  {| BrowserFactory.state_exists :=
       Raise (Exception "PermissionError: [Errno 13] Permission denied");
     BrowserFactory.state_load :=
       Raise (Exception "PermissionError: [Errno 13] Permission denied") |}.

Definition accepting_context : BrowserFactory.Context :=
  {| BrowserFactory.add_cookies := λ _, Ok tt |}.

Definition board_one : Cli.Board :=
  {| Cli.b_id := lit "b1"; Cli.b_name := lit "Research";
     Cli.b_url := board_url |}.

Definition board_two : Cli.Board :=
  {| Cli.b_id := lit "b2"; Cli.b_name := lit "Notes";
     Cli.b_url := lit "https://youmind.com/boards/b2" |}.

(** [--question "Why?" --board-id b1]. *)
Definition ask_b1 : Cli.Args :=
  {| Cli.arg_question := lit "Why?";
     Cli.arg_board_url := None;
     Cli.arg_board_id := Some (lit "b1");
     Cli.arg_show_browser := false |}.

(** A library of two boards, the second one active. *)
Definition library : Cli.BoardLibrary :=
  {| Cli.get_board := λ id,
       if decide (id = lit "b1") then Some board_one
       else if decide (id = lit "b2") then Some board_two
       else None;
     Cli.get_active_board := Some board_two;
     Cli.list_boards := [board_one; board_two];
     Cli.active_board_id := Some (lit "b2") |}.

End Examples.

(** ** Notions used to state the properties *)

(** The snapshot the response reader returns on a page. *)
Definition snapshot_of (page : Page) : list str :=
  match _collect_responses page with
  | Ok texts => texts
  | Raise _ => []
  end.

(** The candidate of one poll, and the same when it passes [if candidate:]. *)
Definition candidate_at (b : Baseline) (p : Poll) : option str :=
  find_candidate b (snapshot_of (poll_page p)).

Definition confirmation_at (b : Baseline) (p : Poll) : option str :=
  match candidate_at b p with
  | Some c => if truthy c then Some c else None
  | None => None
  end.

(** The candidates of the polls that produced one, in poll order. *)
Definition confirmations (b : Baseline) (trace : list Poll) : list str :=
  omap (confirmation_at b) trace.

(** The outcome of one selector of a role counts as a failed pattern. *)
Definition failed_pattern (r : Res (list str)) : Prop :=
  match r with
  | Ok [] => True
  | Ok (_ :: _) => False
  | Raise _ => True
  end.

(** A selector yields no non-empty text on a page: its lookup raises, the
    text of one of the elements it matched cannot be read, or every
    element it matched has a text that is blank. *)
Definition yields_no_text (page : Page) (selector : string) : Prop :=
  match query_selector_all page selector with
  | Raise _ => True
  | Ok elements =>
      Exists (λ el, raises (inner_text el)) elements
      ∨ Forall (λ el, ∃ raw, inner_text el = Ok raw ∧ strip raw = []) elements
  end.

(** The session got as far as a loaded page. *)
Definition navigated (w : World) : Prop :=
  is_authenticated w = true
  ∧ playwright_start w = Ok tt
  ∧ launch_persistent_context w = Ok tt
  ∧ new_page w = Ok tt
  ∧ goto w = Ok tt.

Definition with_polls (w : World) (trace : list Poll) : World :=
  {| is_authenticated := is_authenticated w;
     playwright_start := playwright_start w;
     launch_persistent_context := launch_persistent_context w;
     new_page := new_page w;
     goto := goto w;
     loaded_page := loaded_page w;
     submitted_page := submitted_page w;
     hesitations := hesitations w;
     time_at_submit := time_at_submit w;
     polls := trace |}.


(** *** The URL notions of the specification *)

(** The longest initial segment of [s] without a character of [stop]. *)
Fixpoint take_until (stop : N → bool) (s : str) : str :=
  match s with
  | [] => []
  | c :: s' => if stop c then [] else c :: take_until stop s'
  end.

(** What stands after the last [c] of [s]; [s] itself when it has none. *)
Definition after_last (c : N) (s : str) : str :=
  reverse (take_until (λ d, bool_decide (d = c)) (reverse s)).

(** What stands after the first [://] of a URL. *)
Fixpoint after_scheme (u : str) : str :=
  match u with
  | [] => []
  | _ :: u' => if startswith u (lit "://") then drop 3 u else after_scheme u'
  end.

(** The host of a URL [scheme://user@host:port/path?query#fragment]:
    the authority ends at the first [/], [?] or [#]; the host is what
    stands in it after the last [@] and before the [:] of the port. *)
Definition url_host (u : str) : str :=
  let authority :=
    take_until (λ c, bool_decide (c ∈ lit "/?#")) (after_scheme u) in
  take_until (λ c, bool_decide (c = 58%N)) (after_last 64%N authority).

Definition endswith (s suffix : str) : bool :=
  startswith (reverse s) (reverse suffix).

(** The target domain is the host of the base URL; a URL belongs to it
    when its host is that domain or a subdomain of it. *)
Definition target_domain : str := url_host (lit Config.YOUMIND_BASE_URL).

Definition in_target_domain (u : str) : bool :=
  bool_decide (url_host u = target_domain)
  || endswith (url_host u) (lit "." ++ target_domain).

(** A sign-in redirect has landed on the sign-in URL, whatever query
    follows it. *)
Definition is_sign_in_redirect (u : str) : bool :=
  startswith u (lit Config.YOUMIND_SIGN_IN_URL).

(** Two results of browser calls related by [R] on their values. *)
Definition res_rel {A} (R : A → A → Prop) (r1 r2 : Res A) : Prop :=
  match r1, r2 with
  | Ok a1, Ok a2 => R a1 a2
  | Raise e1, Raise e2 => e1 = e2
  | _, _ => False
  end.

(** Two elements that differ at most in what [is_visible] answers, as far
    as the poll loop reads them. *)
Definition same_but_visibility (e1 e2 : Element) : Prop :=
  inner_text e1 = inner_text e2.

Definition agree_up_to_visibility (p1 p2 : Page) : Prop :=
  ∀ selector,
    res_rel (Forall2 same_but_visibility)
      (query_selector_all p1 selector) (query_selector_all p2 selector).

Definition same_poll_up_to_visibility (p1 p2 : Poll) : Prop :=
  poll_now p1 = poll_now p2
  ∧ agree_up_to_visibility (poll_page p1) (poll_page p2).

(** Two polls that read the clock alike and on which the response reader
    returns the same: whatever else the two pages hold, the thinking
    nodes among it, may differ. *)
Definition same_poll_up_to_thinking (p1 p2 : Poll) : Prop :=
  poll_now p1 = poll_now p2
  ∧ _collect_responses (poll_page p1) = _collect_responses (poll_page p2).

(** *** Statements of the specification, as written *)

(** Completion is declared only after the same candidate was observed on
    three consecutive polls. *)
Definition completion_needs_three_consecutive_polls : Prop :=
  ∀ (B : list str) (deadline : Z) (trace : list Poll) log answer,
    poll_loop (capture_baseline B) deadline trace initial_state
      = (log, Ok (Returned (Some answer))) →
    ∃ earlier p1 p2 p3 later t,
      trace = earlier ++ [p1; p2; p3] ++ later
      ∧ snd (poll_loop (capture_baseline B) deadline
               (earlier ++ [p1; p2]) initial_state) = Ok StillPolling
      ∧ answer = t ++ FOLLOW_UP_REMINDER
      ∧ candidate_at (capture_baseline B) p1 = Some t
      ∧ candidate_at (capture_baseline B) p2 = Some t
      ∧ candidate_at (capture_baseline B) p3 = Some t.




(** The click helper hands a boolean back on every page. *)
Definition click_never_raises : Prop :=
  ∀ (page : Page) (selector : string),
    ∃ log clicked,
      StealthUtils.realistic_click page selector = (log, Ok clicked).

(** The characters typed, in the order of the log. *)
Definition typed_chars (log : list Event) : str :=
  omap (λ ev, match ev with
              | EvTypeChar c _ _ => Some c
              | _ => None
              end) log.

(** Events that neither type a character nor press a key. *)
Definition no_typing_or_key (ev : Event) : Prop :=
  match ev with
  | EvTypeChar _ _ _ | EvKeyPress _ => False
  | _ => True
  end.

(** Events that press no key. *)
Definition no_key (ev : Event) : Prop :=
  match ev with
  | EvKeyPress _ => False
  | _ => True
  end.

(** What the poll loop keeps true of its two variables. *)
Definition loop_invariant (st : LoopState) : Prop :=
  stable_count st ≤ 2
  ∧ (last_text st = None ↔ stable_count st = 0)
  ∧ ∀ t, last_text st = Some t → t ≠ [].

(** ** Proof automation *)

(** Case analysis on the browser calls the click helper makes after the
    first lookup. *)
Ltac click_cases :=
  repeat match goal with
    | |- context [bounding_box ?e] =>
        destruct (bounding_box e) as [[?|]|?]; cbn
    | |- context [mouse_move ?p ?x ?y] =>
        destruct (mouse_move p x y) as [[]|?]; cbn
    | |- context [click ?e] =>
        destruct (click e) as [[]|?]; cbn
    end.

(** Unfold the binds of the session up to the next browser call. *)
Ltac session_step := cbn [mbind Run_bind call emit mret Run_ret].

(** The session ends here, whatever the polls are. *)
Ltac session_ends :=
  left; eexists _, _; split; [|intros trace; reflexivity]; discriminate.

(** * Properties *)

(** ** Counters and strings *)

Section PyFacts.

Lemma count_of_insert (m : gmap str nat) (y x : str) :
  count_of (<[y := S (default 0 (m !! y))]> m) x
  = (if decide (y = x) then 1 else 0) + count_of m x.
Proof.
  unfold count_of. rewrite lookup_insert.
  destruct (decide (y = x)) as [->|Hne]; simpl; reflexivity.
Qed.

Lemma count_of_foldl (xs : list str) (m : gmap str nat) (x : str) :
  count_of (foldl (λ m x, <[x := S (default 0 (m !! x))]> m) m xs) x
  = count_of m x + occurrences x xs.
Proof.
  revert m. induction xs as [|y xs IH]; intros m; simpl.
  - lia.
  - rewrite IH, count_of_insert. lia.
Qed.

(** A Counter holds, for each text, the number of its occurrences. *)
Lemma Counter_occurrences (xs : list str) (x : str) :
  count_of (Counter xs) x = occurrences x xs.
Proof.
  unfold Counter. rewrite count_of_foldl.
  unfold count_of. rewrite lookup_empty. reflexivity.
Qed.

Lemma occurrences_app (x : str) (xs ys : list str) :
  occurrences x (xs ++ ys) = occurrences x xs + occurrences x ys.
Proof. induction xs as [|y xs IH]; simpl; [reflexivity | rewrite IH; lia]. Qed.

Lemma occurrences_pos_elem (x : str) (xs : list str) :
  0 < occurrences x xs → x ∈ xs.
Proof.
  induction xs as [|y xs IH]; simpl; [lia|].
  destruct (decide (y = x)) as [->|Hne]; intros H.
  - apply list_elem_of_here.
  - apply list_elem_of_further, IH. lia.
Qed.

Lemma occurrences_last (xs : list str) (x : str) :
  last xs = Some x → 0 < occurrences x xs.
Proof.
  intros H. apply last_Some in H as [l' ->].
  rewrite occurrences_app. simpl. rewrite decide_True by reflexivity. lia.
Qed.

End PyFacts.

(** ** The candidate rules *)

Section CandidateRules.

Variables current_counts previous_counts : gmap str nat.

(** The scan stops at the first text whose count increased: the texts
    visited before it did not increase. *)
Lemma first_increased_Some (texts : list str) (t : str) :
  first_increased current_counts previous_counts texts = Some t →
  ∃ visited remaining,
    texts = visited ++ t :: remaining
    ∧ count_of previous_counts t < count_of current_counts t
    ∧ ∀ u, u ∈ visited →
           count_of current_counts u ≤ count_of previous_counts u.
Proof.
  induction texts as [|x texts IH]; simpl; [discriminate|].
  destruct (Nat.ltb_spec (count_of previous_counts x)
              (count_of current_counts x)) as [Hlt|Hge].
  - intros [= <-]. exists [], texts. split; [reflexivity|].
    split; [assumption|]. intros u Hu. inversion Hu.
  - intros H. destruct (IH H) as (visited & remaining & -> & Ht & Hv).
    exists (x :: visited), remaining. split; [reflexivity|].
    split; [assumption|]. intros u Hu.
    apply elem_of_cons in Hu as [->|Hu]; [assumption | by apply Hv].
Qed.

Lemma first_increased_None (texts : list str) :
  first_increased current_counts previous_counts texts = None ↔
  ∀ u, u ∈ texts → count_of current_counts u ≤ count_of previous_counts u.
Proof.
  induction texts as [|x texts IH]; simpl.
  - split; [intros _ u Hu; inversion Hu | reflexivity].
  - destruct (Nat.ltb_spec (count_of previous_counts x)
                (count_of current_counts x)) as [Hlt|Hge].
    + split; [discriminate|]. intros H.
      specialize (H x (list_elem_of_here _ _)). lia.
    + rewrite IH. split.
      * intros H u Hu.
        apply elem_of_cons in Hu as [->|Hu]; [assumption | by apply H].
      * intros H u Hu. apply H. by apply list_elem_of_further.
Qed.

End CandidateRules.

Lemma primary_candidate_Some (B S : list str) (t : str) :
  primary_candidate (capture_baseline B) S = Some t →
  ∃ older newer,
    S = older ++ t :: newer
    ∧ occurrences t B < occurrences t S
    ∧ ∀ u, u ∈ newer → occurrences u S ≤ occurrences u B.
Proof.
  unfold primary_candidate. simpl. intros H.
  apply first_increased_Some in H as (visited & remaining & Hrev & Ht & Hv).
  exists (reverse remaining), (reverse visited). split.
  - rewrite <- (reverse_involutive S), Hrev.
    rewrite reverse_app, reverse_cons, <- app_assoc. reflexivity.
  - rewrite !Counter_occurrences in Ht. split; [assumption|].
    intros u Hu. rewrite elem_of_reverse in Hu. specialize (Hv u Hu).
    by rewrite !Counter_occurrences in Hv.
Qed.

Lemma primary_candidate_None (B S : list str) :
  primary_candidate (capture_baseline B) S = None ↔
  ∀ u, u ∈ S → occurrences u S ≤ occurrences u B.
Proof.
  unfold primary_candidate. simpl. rewrite first_increased_None.
  split; intros H u Hu.
  - rewrite <- !Counter_occurrences. apply H. by rewrite elem_of_reverse.
  - rewrite !Counter_occurrences. apply H. by rewrite elem_of_reverse in Hu.
Qed.

Lemma find_candidate_primary (b : Baseline) (S : list str) (t : str) :
  primary_candidate b S = Some t → find_candidate b S = Some t.
Proof.
  intros H. unfold find_candidate. destruct S as [|x S].
  - discriminate H.
  - rewrite H. reflexivity.
Qed.

(** C1: whenever some text occurs more often in the current snapshot [S]
    than in the baseline [B], the primary rule selects a text: it is the
    one at the most recent position of [S] whose count exceeds its count
    in [B], so no text rendered after it has an increased count, and it is
    the candidate of the poll. *)
Theorem primary_rule_selects_most_recent (B S : list str) :
  (∃ t, occurrences t B < occurrences t S) →
  ∃ t older newer,
    primary_candidate (capture_baseline B) S = Some t
    ∧ find_candidate (capture_baseline B) S = Some t
    ∧ S = older ++ t :: newer
    ∧ occurrences t B < occurrences t S
    ∧ ∀ u, u ∈ newer → occurrences u S ≤ occurrences u B.
Proof.
  intros [t0 Ht0].
  destruct (primary_candidate (capture_baseline B) S) as [t|] eqn:Hp.
  - destruct (primary_candidate_Some B S t Hp) as (older & newer & HS & Ht & Hn).
    exists t, older, newer.
    split; [reflexivity|]. split; [by apply find_candidate_primary|].
    split; [assumption|]. split; assumption.
  - exfalso. rewrite primary_candidate_None in Hp.
    assert (t0 ∈ S) as Hin by (apply occurrences_pos_elem; lia).
    specialize (Hp t0 Hin). lia.
Qed.

Lemma primary_rule_selects_most_recent_witness :
  ∃ t older newer,
    primary_candidate (capture_baseline [Examples.answer_a; Examples.hi])
      [Examples.answer_a; Examples.hi; Examples.answer_a; Examples.hi]
      = Some t
    ∧ find_candidate (capture_baseline [Examples.answer_a; Examples.hi])
        [Examples.answer_a; Examples.hi; Examples.answer_a; Examples.hi]
      = Some t
    ∧ [Examples.answer_a; Examples.hi; Examples.answer_a; Examples.hi]
      = older ++ t :: newer
    ∧ occurrences t [Examples.answer_a; Examples.hi]
      < occurrences t
          [Examples.answer_a; Examples.hi; Examples.answer_a; Examples.hi]
    ∧ ∀ u, u ∈ newer →
        occurrences u
          [Examples.answer_a; Examples.hi; Examples.answer_a; Examples.hi]
        ≤ occurrences u [Examples.answer_a; Examples.hi].
Proof.
  apply (primary_rule_selects_most_recent
           [Examples.answer_a; Examples.hi]
           [Examples.answer_a; Examples.hi; Examples.answer_a; Examples.hi]).
  exists Examples.hi. vm_compute. lia.
Defined.

(** The scenario of the specification with a duplicated baseline text. *)
Example primary_rule_counts_duplicates :
  primary_candidate
    (capture_baseline [Examples.answer_a; Examples.answer_a])
    [Examples.answer_a; Examples.answer_a; Examples.answer_a]
  = Some Examples.answer_a.
Proof. vm_compute. reflexivity. Qed.

Example primary_rule_takes_latest_increase :
  primary_candidate (capture_baseline [Examples.hi])
    [Examples.hi; Examples.working; Examples.done_text]
  = Some Examples.done_text.
Proof. vm_compute. reflexivity. Qed.

Lemma fallback_candidate_Some (B S : list str) (t : str) :
  fallback_candidate (capture_baseline B) S = Some t →
  ∃ previous_last,
    last B = Some previous_last
    ∧ last S = Some t
    ∧ t ≠ previous_last
    ∧ S ≠ B.
Proof.
  unfold fallback_candidate, fallback_applies. simpl.
  destruct (last B) as [previous_last|]; [|discriminate].
  destruct (truthy previous_last); simpl; [|discriminate].
  case_bool_decide as Hl; simpl; [|discriminate].
  case_bool_decide as Hs; simpl; [|discriminate].
  intros H. exists previous_last. split; [reflexivity|].
  split; [assumption|]. split; [|assumption].
  intros ->. apply Hl. assumption.
Qed.

(** A candidate comes from one of the two rules, and from the fallback
    only when the primary rule found nothing. *)
Lemma find_candidate_Some (B S : list str) (t : str) :
  find_candidate (capture_baseline B) S = Some t →
  occurrences t B < occurrences t S
  ∨ (primary_candidate (capture_baseline B) S = None
     ∧ ∃ previous_last,
         last B = Some previous_last
         ∧ last S = Some t
         ∧ t ≠ previous_last
         ∧ S ≠ B).
Proof.
  unfold find_candidate. destruct S as [|x S]; [discriminate|].
  destruct (primary_candidate (capture_baseline B) (x :: S)) as [c|] eqn:Hp.
  - intros [= ->]. left.
    destruct (primary_candidate_Some _ _ _ Hp) as (? & ? & _ & Ht & _).
    exact Ht.
  - intros H. right. split; [reflexivity|].
    by apply fallback_candidate_Some.
Qed.

(** A snapshot equal to the baseline yields no candidate. *)
Lemma find_candidate_unchanged (B : list str) :
  find_candidate (capture_baseline B) B = None.
Proof.
  unfold find_candidate. destruct B as [|x B]; [reflexivity|].
  assert (primary_candidate (capture_baseline (x :: B)) (x :: B) = None) as ->.
  { apply primary_candidate_None. intros u _. lia. }
  unfold fallback_candidate, fallback_applies. simpl previous_last_response.
  simpl previous_responses.
  destruct (last (x :: B)); [|reflexivity].
  rewrite (bool_decide_eq_false_2 (x :: B ≠ x :: B)) by (intros H; by apply H).
  rewrite andb_false_r. reflexivity.
Qed.

(** C4: with an empty baseline there is no baseline last text, so the
    in-place-update fallback does not apply to a non-empty snapshot and
    yields no candidate; the candidate of the poll is the one of the
    primary count-based rule (which then selects the last text). *)
Theorem empty_baseline_disables_fallback (S : list str) :
  S ≠ [] →
  previous_last_response (capture_baseline []) = None
  ∧ fallback_applies (capture_baseline []) S = false
  ∧ fallback_candidate (capture_baseline []) S = None
  ∧ find_candidate (capture_baseline []) S
    = primary_candidate (capture_baseline []) S
  ∧ primary_candidate (capture_baseline []) S = last S.
Proof.
  intros HS.
  split; [reflexivity|]. split; [reflexivity|]. split; [reflexivity|].
  assert (primary_candidate (capture_baseline []) S = last S) as Hp.
  { destruct (last S) as [x|] eqn:Hl; [|by apply last_None in Hl].
    pose proof (occurrences_last S x Hl) as Hocc.
    apply last_Some in Hl as [l' ->].
    unfold primary_candidate. simpl previous_counts.
    rewrite reverse_app. simpl.
    destruct (Nat.ltb_spec (count_of (Counter []) x)
                (count_of (Counter (l' ++ [x])) x)) as [_|Hge];
      [reflexivity|].
    rewrite !Counter_occurrences in Hge. simpl in Hge. lia. }
  split; [|exact Hp].
  unfold find_candidate. destruct S as [|x S]; [done|].
  rewrite Hp. destruct (last (x :: S)) eqn:Hl; [reflexivity|].
  by apply last_None in Hl.
Qed.

Lemma empty_baseline_disables_fallback_witness :
  previous_last_response (capture_baseline []) = None
  ∧ fallback_applies (capture_baseline [])
      [Examples.hi; Examples.working] = false
  ∧ fallback_candidate (capture_baseline [])
      [Examples.hi; Examples.working] = None
  ∧ find_candidate (capture_baseline []) [Examples.hi; Examples.working]
    = primary_candidate (capture_baseline [])
        [Examples.hi; Examples.working]
  ∧ primary_candidate (capture_baseline [])
      [Examples.hi; Examples.working]
    = last [Examples.hi; Examples.working].
Proof.
  apply (empty_baseline_disables_fallback [Examples.hi; Examples.working]).
  discriminate.
Defined.

(** With a non-empty baseline: an edit of the last message to a new text
    is caught by the primary rule; a snapshot that lost its last message
    yields nothing; the fallback fires when the last text changed to one
    the baseline already held as often. *)
Example fallback_fires_on_in_place_edit :
  primary_candidate (capture_baseline [Examples.hi; Examples.working])
    [Examples.hi; Examples.done_text] = Some Examples.done_text
  ∧ find_candidate (capture_baseline [Examples.hi; Examples.hi])
      [Examples.hi] = None
  ∧ find_candidate (capture_baseline [Examples.hi; Examples.working])
      [Examples.working; Examples.hi] = Some Examples.hi.
Proof. vm_compute. repeat split. Qed.

(** ** Whitespace stripping *)

Section Strip.

(** A string that is empty or starts with a character that is kept. *)
Lemma lstrip_head (s : str) :
  match lstrip s with
  | [] => True
  | c :: _ => is_space c = false
  end.
Proof.
  induction s as [|c s IH]; simpl; [exact I|].
  destruct (is_space c) eqn:Hc; [exact IH | exact Hc].
Qed.

Lemma lstrip_fixed (s : str) :
  match s with
  | [] => True
  | c :: _ => is_space c = false
  end →
  lstrip s = s.
Proof. destruct s as [|c s]; simpl; [reflexivity|]. by intros ->. Qed.

Lemma lstrip_suffix (s : str) : ∃ dropped, s = dropped ++ lstrip s.
Proof.
  induction s as [|c s [dropped IH]]; simpl.
  - by exists [].
  - destruct (is_space c).
    + exists (c :: dropped). simpl. by rewrite <- IH.
    + by exists [].
Qed.

Lemma lstrip_idempotent (s : str) : lstrip (lstrip s) = lstrip s.
Proof. apply lstrip_fixed, lstrip_head. Qed.

(** What [strip] returns neither starts nor ends with whitespace. *)
Lemma strip_ends (s : str) :
  match strip s with
  | [] => True
  | c :: _ => is_space c = false
  end
  ∧ match reverse (strip s) with
    | [] => True
    | c :: _ => is_space c = false
    end.
Proof.
  unfold strip, rstrip. rewrite reverse_involutive.
  split; [|apply lstrip_head].
  pose proof (lstrip_head s) as Hs.
  destruct (lstrip_suffix (reverse (lstrip s))) as [dropped Hd].
  remember (lstrip (reverse (lstrip s))) as inner eqn:Hinner.
  destruct (reverse inner) as [|c rest] eqn:Hr; [exact I|].
  assert (head (lstrip s) = Some c) as Hhead.
  { rewrite <- last_reverse, Hd.
    assert (inner = reverse (c :: rest)) as ->
      by (by rewrite <- Hr, reverse_involutive).
    rewrite reverse_cons, app_assoc. apply last_snoc. }
  destruct (lstrip s) as [|c' s']; [discriminate|].
  simpl in Hhead. by injection Hhead as ->.
Qed.

Lemma strip_idempotent (s : str) : strip (strip s) = strip s.
Proof.
  destruct (strip_ends s) as [Hfront Hback].
  unfold strip at 1. rewrite (lstrip_fixed (strip s) Hfront).
  unfold rstrip. rewrite (lstrip_fixed (reverse (strip s)) Hback).
  apply reverse_involutive.
Qed.

End Strip.

Example strip_examples :
  strip (lit "  Answer A ") = lit "Answer A"
  ∧ strip (lit "   ") = []
  ∧ strip ([9; 160; 8239] ++ lit "a b" ++ [10; 13; 12288])%N = lit "a b".
Proof. vm_compute. repeat split. Qed.

(** ** The response reader and the selector lists *)

Section Reader.

Variable page : Page.

(** The inner loop only ever appends stripped, non-empty texts. *)
Lemma collect_texts_appends (elements : list Element) (acc texts : list str) :
  collect_texts elements acc = Ok texts →
  ∃ new,
    texts = acc ++ new
    ∧ Forall (λ t, strip t ≠ [] ∧ strip t = t) new.
Proof.
  revert acc. induction elements as [|el elements IH]; intros acc; simpl.
  - intros [= <-]. exists []. by rewrite app_nil_r.
  - destruct (inner_text el) as [raw|e]; simpl; [|discriminate].
    destruct (strip raw) as [|c s] eqn:Hs; simpl.
    + apply IH.
    + intros H. destruct (IH _ H) as (new & -> & Hnew).
      exists ((c :: s) :: new). rewrite <- app_assoc. split; [reflexivity|].
      constructor; [|assumption].
      rewrite <- Hs, strip_idempotent. rewrite Hs. split; [discriminate|reflexivity].
Qed.

(** Elements whose text is blank add nothing. *)
Lemma collect_texts_blank (elements : list Element) (acc : list str) :
  Forall (λ el, ∃ raw, inner_text el = Ok raw ∧ strip raw = []) elements →
  collect_texts elements acc = Ok acc.
Proof.
  induction 1 as [|el elements (raw & Hraw & Hblank) _ IH]; simpl.
  - reflexivity.
  - rewrite Hraw. simpl. rewrite Hblank. simpl. exact IH.
Qed.

Lemma selector_texts_of_stripped (selector : string) (texts : list str) :
  selector_texts_of page selector = Ok texts →
  Forall (λ t, strip t ≠ [] ∧ strip t = t) texts.
Proof.
  unfold selector_texts_of.
  destruct (query_selector_all page selector) as [elements|e]; simpl;
    [|discriminate].
  intros H. apply collect_texts_appends in H as (new & -> & Hnew).
  exact Hnew.
Qed.

Lemma selector_texts_of_lookup_raises (selector : string) :
  raises (query_selector_all page selector) →
  raises (selector_texts_of page selector).
Proof.
  unfold selector_texts_of.
  by destruct (query_selector_all page selector).
Qed.

(** A failed pattern is skipped. *)
Lemma collect_responses_from_skip (selector : string) (selectors : list string) :
  failed_pattern (selector_texts_of page selector) →
  collect_responses_from (selector :: selectors) page
  = collect_responses_from selectors page.
Proof.
  simpl. by destruct (selector_texts_of page selector) as [[|t ts]|e].
Qed.

Lemma collect_responses_from_total (selectors : list string) :
  ∃ texts, collect_responses_from selectors page = Ok texts.
Proof.
  induction selectors as [|selector selectors IH]; simpl.
  - by exists [].
  - destruct (selector_texts_of page selector) as [[|t ts]|e];
      [exact IH | by eexists | exact IH].
Qed.

Lemma collect_responses_from_stripped (selectors : list string)
    (texts : list str) :
  collect_responses_from selectors page = Ok texts →
  Forall (λ t, strip t ≠ [] ∧ strip t = t) texts.
Proof.
  induction selectors as [|selector selectors IH]; simpl.
  - intros [= <-]. constructor.
  - destruct (selector_texts_of page selector) as [[|t ts]|e] eqn:Hs;
      [exact IH | | exact IH].
    intros [= <-]. by apply (selector_texts_of_stripped selector).
Qed.

(** The reader returns the empty list exactly when every pattern failed. *)
Lemma collect_responses_from_empty (selectors : list string) :
  collect_responses_from selectors page = Ok [] ↔
  ∀ s, s ∈ selectors → failed_pattern (selector_texts_of page s).
Proof.
  induction selectors as [|selector selectors IH]; simpl.
  - split; [intros _ s Hs; inversion Hs | reflexivity].
  - destruct (selector_texts_of page selector) as [[|t ts]|e] eqn:Hsel.
    + rewrite IH. split.
      * intros H s Hs. apply elem_of_cons in Hs as [->|Hs];
          [by rewrite Hsel | by apply H].
      * intros H s Hs. apply H. by apply list_elem_of_further.
    + split; [discriminate|]. intros H.
      specialize (H selector (list_elem_of_here _ _)).
      by rewrite Hsel in H.
    + rewrite IH. split.
      * intros H s Hs. apply elem_of_cons in Hs as [->|Hs];
          [by rewrite Hsel | by apply H].
      * intros H s Hs. apply H. by apply list_elem_of_further.
Qed.

Lemma _collect_responses_snapshot :
  _collect_responses page = Ok (snapshot_of page).
Proof.
  unfold snapshot_of, _collect_responses.
  by destruct (collect_responses_from_total Config.RESPONSE_SELECTORS)
    as [texts ->].
Qed.

Lemma find_input_selector_from_total (selectors : list string) :
  ∃ found, find_input_selector_from selectors page = Ok found.
Proof.
  induction selectors as [|selector selectors IH]; simpl.
  - by exists None.
  - destruct (wait_for_selector page selector); [by eexists | exact IH].
Qed.

Lemma find_input_selector_from_none (selectors : list string) :
  (∀ s, s ∈ selectors → raises (wait_for_selector page s)) →
  find_input_selector_from selectors page = Ok None.
Proof.
  induction selectors as [|selector selectors IH]; simpl; [reflexivity|].
  intros H. pose proof (H selector (list_elem_of_here _ _)) as Hr.
  destruct (wait_for_selector page selector); [destruct Hr|].
  apply IH. intros s Hs. apply H. by apply list_elem_of_further.
Qed.

Lemma is_thinking_from_total (selectors : list string) :
  ∃ thinking, is_thinking_from selectors page = Ok thinking.
Proof.
  induction selectors as [|selector selectors IH]; simpl.
  - by exists false.
  - destruct (query_selector_all page selector ≫= any_visible)
      as [[|]|e]; [by eexists | exact IH | exact IH].
Qed.

Lemma click_send_from_total (selectors : list string) :
  ∃ log, click_send_from selectors page = (log, Ok tt).
Proof.
  induction selectors as [|selector selectors [log IH]]; simpl.
  - by eexists.
  - destruct (StealthUtils.realistic_click page selector)
      as [log1 [[|]|e]]; simpl.
    + by eexists.
    + rewrite IH. by eexists.
    + rewrite IH. by eexists.
Qed.

End Reader.

(** C7: resolving a role over any selector list never raises: the
    response reader, the input lookup, the thinking check and the
    send-button loop all hand a value back. Over an empty list, or when
    every pattern fails or raises, the reader returns the empty list and
    the input lookup returns no selector; a pattern that raises is skipped
    and resolution goes on with the patterns after it. *)
Theorem selector_resolution_never_raises (selectors : list string)
    (page : Page) :
  (∃ texts, collect_responses_from selectors page = Ok texts)
  ∧ (∃ found, find_input_selector_from selectors page = Ok found)
  ∧ (∃ thinking, is_thinking_from selectors page = Ok thinking)
  ∧ (∃ log, click_send_from selectors page = (log, Ok tt))
  ∧ collect_responses_from [] page = Ok []
  ∧ find_input_selector_from [] page = Ok None
  ∧ ((∀ s, s ∈ selectors → failed_pattern (selector_texts_of page s)) →
     collect_responses_from selectors page = Ok [])
  ∧ ((∀ s, s ∈ selectors → raises (wait_for_selector page s)) →
     find_input_selector_from selectors page = Ok None)
  ∧ (∀ s, raises (query_selector_all page s) →
          raises (selector_texts_of page s))
  ∧ (∀ s, raises (selector_texts_of page s) →
          collect_responses_from (s :: selectors) page
          = collect_responses_from selectors page)
  ∧ (∀ s, raises (wait_for_selector page s) →
          find_input_selector_from (s :: selectors) page
          = find_input_selector_from selectors page).
Proof.
  split; [apply collect_responses_from_total|].
  split; [apply find_input_selector_from_total|].
  split; [apply is_thinking_from_total|].
  split; [apply click_send_from_total|].
  split; [reflexivity|]. split; [reflexivity|].
  split; [apply collect_responses_from_empty|].
  split; [apply find_input_selector_from_none|].
  split; [apply selector_texts_of_lookup_raises|].
  split.
  - intros s Hs. apply collect_responses_from_skip.
    by destruct (selector_texts_of page s).
  - intros s Hs. simpl. by destruct (wait_for_selector page s).
Qed.

(** On a page where every lookup raises, each role resolves to nothing. *)
Example resolution_on_navigating_page :
  _collect_responses Examples.navigating_page = Ok []
  ∧ _find_input_selector Examples.navigating_page = Ok None
  ∧ _is_thinking Examples.navigating_page = Ok false
  ∧ click_send_from Config.SEND_BUTTON_SELECTORS Examples.navigating_page
    = ([], Ok tt).
Proof. vm_compute. repeat split. Qed.

(** What the reader does with the elements of one selector, in terms of
    the lookups of the page. *)
Lemma collect_texts_outcome (elements : list Element) (acc : list str) :
  match collect_texts elements acc with
  | Raise _ => Exists (λ el, raises (inner_text el)) elements
  | Ok texts =>
      ∃ raws,
        Forall2 (λ el raw, inner_text el = Ok raw) elements raws
        ∧ texts = acc ++ List.filter truthy (map strip raws)
  end.
Proof.
  revert acc. induction elements as [|el elements IH]; intros acc; simpl.
  - exists []. split; [constructor|]. by rewrite app_nil_r.
  - destruct (inner_text el) as [raw|e] eqn:Hraw; simpl.
    + specialize (IH (if truthy (strip raw) then acc ++ [strip raw] else acc)).
      destruct (collect_texts elements _) as [texts|e].
      * destruct IH as (raws & Hraws & ->). exists (raw :: raws).
        split; [by constructor|]. simpl.
        destruct (truthy (strip raw)); [|reflexivity].
        by rewrite <- app_assoc.
      * by apply Exists_cons_tl.
    + apply Exists_cons_hd. by rewrite Hraw.
Qed.

Lemma filter_truthy_nil (raws : list str) :
  List.filter truthy (map strip raws) = [] ↔ Forall (λ raw, strip raw = []) raws.
Proof.
  induction raws as [|raw raws IH]; simpl.
  - split; [constructor | reflexivity].
  - destruct (strip raw) as [|c s] eqn:Hs; simpl.
    + rewrite IH. split; [intros; by constructor | by inversion 1].
    + split; [discriminate | inversion 1; congruence].
Qed.

Lemma failed_pattern_yields_no_text (page : Page) (selector : string) :
  failed_pattern (selector_texts_of page selector)
  ↔ yields_no_text page selector.
Proof.
  unfold selector_texts_of, yields_no_text.
  destruct (query_selector_all page selector) as [elements|e]; simpl;
    [|done].
  pose proof (collect_texts_outcome elements []) as H.
  destruct (collect_texts elements []) as [texts|e]; simpl.
  - destruct H as (raws & Hraws & ->). simpl.
    assert (failed_pattern (Ok (List.filter truthy (map strip raws)))
            ↔ List.filter truthy (map strip raws) = []) as ->.
    { destruct (List.filter truthy (map strip raws)); simpl; split; done. }
    rewrite filter_truthy_nil. split.
    + intros Hblank. right. clear -Hraws Hblank.
      induction Hraws as [|el raw els raws Hel _ IH]; [constructor|].
      inversion Hblank; subst. constructor; [by exists raw | by apply IH].
    + intros [Hraise|Hblank].
      * exfalso. clear -Hraws Hraise.
        induction Hraws as [|el raw els raws Hel _ IH];
          inversion Hraise; subst; [|by apply IH].
        match goal with Hr : raises _ |- _ => by rewrite Hel in Hr end.
      * clear -Hraws Hblank.
        induction Hraws as [|el raw els raws Hel _ IH]; [constructor|].
        inversion Hblank as [|? ? (raw' & Hraw' & Hs) Hrest]; subst.
        constructor; [congruence | by apply IH].
  - split; [by left | done].
Qed.

Lemma collect_texts_spec (elements : list Element) (acc texts : list str) :
  collect_texts elements acc = Ok texts ↔
  ∃ raws,
    Forall2 (λ el raw, inner_text el = Ok raw) elements raws
    ∧ texts = acc ++ List.filter truthy (map strip raws).
Proof.
  revert acc. induction elements as [|el elements IH]; intros acc; simpl.
  - split.
    + intros [= <-]. exists []. split; [constructor|]. by rewrite app_nil_r.
    + intros (raws & Hraws & ->). inversion Hraws. by rewrite app_nil_r.
  - destruct (inner_text el) as [raw|e] eqn:Hraw; simpl.
    + rewrite IH. split.
      * intros (raws & Hraws & ->). exists (raw :: raws).
        split; [by constructor|]. simpl.
        destruct (truthy (strip raw)); [|reflexivity].
        by rewrite <- app_assoc.
      * intros (raws & Hraws & ->).
        inversion Hraws as [|? raw' ? raws' Hhead Htail]; subst.
        assert (raw' = raw) as -> by congruence.
        exists raws'. split; [exact Htail|]. simpl.
        destruct (truthy (strip raw)); [|reflexivity].
        by rewrite <- app_assoc.
    + split; [discriminate|]. intros (raws & Hraws & _).
      inversion Hraws; congruence.
Qed.

Lemma collect_responses_from_first (page : Page) (selectors : list string)
    (texts : list str) :
  collect_responses_from selectors page = Ok texts →
  texts ≠ [] →
  ∃ skipped sel rest,
    selectors = skipped ++ sel :: rest
    ∧ (∀ s, s ∈ skipped → failed_pattern (selector_texts_of page s))
    ∧ selector_texts_of page sel = Ok texts.
Proof.
  induction selectors as [|selector selectors IH]; simpl.
  - by intros [= <-].
  - destruct (selector_texts_of page selector) as [[|t ts]|e] eqn:Hs.
    + intros H Hne. destruct (IH H Hne) as (skipped & sel & rest & -> & Hf & Ht).
      exists (selector :: skipped), sel, rest. split; [reflexivity|].
      split; [|exact Ht]. intros s Hin.
      apply elem_of_cons in Hin as [->|Hin]; [by rewrite Hs | by apply Hf].
    + intros [= <-] _. exists [], selector, selectors.
      split; [reflexivity|]. split; [|exact Hs]. intros s Hin. inversion Hin.
    + intros H Hne. destruct (IH H Hne) as (skipped & sel & rest & -> & Hf & Ht).
      exists (selector :: skipped), sel, rest. split; [reflexivity|].
      split; [|exact Ht]. intros s Hin.
      apply elem_of_cons in Hin as [->|Hin]; [by rewrite Hs | by apply Hf].
Qed.

(** C10: the response reader returns only texts that are non-empty after
    whitespace stripping (they are their own stripped form). The returned
    list is empty exactly when no configured selector yields a non-empty
    text, that is when for each of them the lookup raises, the text of a
    matched element cannot be read, or every matched element has blank
    text. A non-empty list is made of the stripped texts of the elements
    matched by the first selector that yields one, the blank ones left
    out. A selector whose matched elements all have blank text yields
    nothing and the next selector is tried. *)
Theorem collected_responses_are_nonempty (page : Page) :
  ∃ texts,
    _collect_responses page = Ok texts
    ∧ Forall (λ t, strip t ≠ [] ∧ strip t = t) texts
    ∧ (texts = [] ↔
       ∀ s, s ∈ Config.RESPONSE_SELECTORS → yields_no_text page s)
    ∧ (texts ≠ [] →
       ∃ skipped sel rest elements raws,
         Config.RESPONSE_SELECTORS = skipped ++ sel :: rest
         ∧ (∀ s, s ∈ skipped → yields_no_text page s)
         ∧ query_selector_all page sel = Ok elements
         ∧ Forall2 (λ el raw, inner_text el = Ok raw) elements raws
         ∧ texts = List.filter truthy (map strip raws))
    ∧ (∀ selectors s elements,
         query_selector_all page s = Ok elements →
         Forall (λ el, ∃ raw, inner_text el = Ok raw ∧ strip raw = [])
           elements →
         selector_texts_of page s = Ok []
         ∧ collect_responses_from (s :: selectors) page
           = collect_responses_from selectors page).
Proof.
  exists (snapshot_of page).
  pose proof (_collect_responses_snapshot page) as Hsnap.
  split; [exact Hsnap|].
  split; [by apply (collect_responses_from_stripped page
                      Config.RESPONSE_SELECTORS)|].
  split; [|split].
  - transitivity (∀ s, s ∈ Config.RESPONSE_SELECTORS →
                       failed_pattern (selector_texts_of page s)).
    + rewrite <- (collect_responses_from_empty page Config.RESPONSE_SELECTORS).
      fold (_collect_responses page). rewrite Hsnap.
      split; [by intros -> | by intros [= ->]].
    + split; intros H s Hs; apply failed_pattern_yields_no_text; by apply H.
  - intros Hne.
    destruct (collect_responses_from_first page _ _ Hsnap Hne)
      as (skipped & sel & rest & Hlist & Hfailed & Hsel).
    unfold selector_texts_of in Hsel.
    destruct (query_selector_all page sel) as [elements|e] eqn:Hq;
      [|discriminate].
    simpl in Hsel. apply collect_texts_spec in Hsel as (raws & Hraws & Htexts).
    exists skipped, sel, rest, elements, raws.
    repeat split; try done.
    intros s Hs. apply failed_pattern_yields_no_text. by apply Hfailed.
  - intros selectors s elements Hq Hblank.
    assert (selector_texts_of page s = Ok []) as Hs.
    { unfold selector_texts_of. rewrite Hq. simpl.
      by apply collect_texts_blank. }
    split; [exact Hs|].
    apply collect_responses_from_skip. by rewrite Hs.
Qed.

(** Blank and padded message blocks: the blank one is dropped, the padded
    one is stripped; when the first selector matches only blank blocks the
    second selector is read. *)
Example reader_drops_blank_texts :
  snapshot_of
    (Examples.board_page Examples.board_url
       [lit "  "; lit " Answer A "; []] false true)
  = [Examples.answer_a]
  ∧ _collect_responses Examples.layered_page = Ok [Examples.answer_a].
Proof. vm_compute. repeat split. Qed.

(** A pattern whose reading raises part-way is a failed pattern: the
    texts read before the exception are dropped with it. *)
Example reader_drops_half_read_pattern :
  raises (selector_texts_of Examples.half_read_page "div.message-blocks")
  ∧ _collect_responses Examples.half_read_page = Ok [].
Proof. vm_compute. repeat split. Qed.

(** ** The poll loop *)

Section PollLoop.

Variable b : Baseline.
Variable deadline : Z.

(** One iteration, with the reads of the page resolved. *)
Lemma poll_loop_cons (p : Poll) (rest : list Poll) (st : LoopState) :
  poll_loop b deadline (p :: rest) st =
  if (poll_now p <? deadline)%Z then
    match stability_step st (candidate_at b p) with
    | Return answer => ([EvPrint MsgGotAnswer], Ok (Returned (Some answer)))
    | Continue st' =>
        let '(log, r) := poll_loop b deadline rest st' in
        (EvSleep 800 :: log, r)
    end
  else ([EvPrint MsgTimeout], Ok (Returned None)).
Proof.
  cbn [poll_loop]. destruct (poll_now p <? deadline)%Z; [|reflexivity].
  rewrite _collect_responses_snapshot. unfold candidate_at.
  cbn [call mbind Run_bind].
  destruct (stability_step st (find_candidate b (snapshot_of (poll_page p))))
    as [st'|answer]; [|reflexivity].
  destruct (is_thinking_from_total (poll_page p) Config.THINKING_SELECTORS)
    as [thinking Hth].
  unfold _is_thinking. rewrite Hth.
  destruct (poll_loop b deadline rest st') as [log r].
  destruct thinking; reflexivity.
Qed.

(** The loop itself never raises. *)
Lemma poll_loop_total (trace : list Poll) (st : LoopState) :
  ∃ log outcome, poll_loop b deadline trace st = (log, Ok outcome).
Proof.
  revert st. induction trace as [|p rest IH]; intros st.
  - by eexists _, _.
  - rewrite poll_loop_cons. destruct (poll_now p <? deadline)%Z.
    + destruct (stability_step st (candidate_at b p)) as [st'|answer].
      * destruct (IH st') as (log & outcome & ->). by eexists _, _.
      * by eexists _, _.
    + by eexists _, _.
Qed.

(** What a [Return] of the stability block tells. *)
Lemma stability_step_Return (st : LoopState) (candidate : option str)
    (answer : str) :
  stability_step st candidate = Return answer →
  ∃ t,
    candidate = Some t
    ∧ truthy t = true
    ∧ last_text st = Some t
    ∧ 2 ≤ stable_count st
    ∧ answer = t ++ FOLLOW_UP_REMINDER.
Proof.
  unfold stability_step. destruct candidate as [c|]; [|discriminate].
  destruct (truthy c) eqn:Hc; [|discriminate].
  case_bool_decide as Heq; [|discriminate].
  destruct (Nat.leb_spec 3 (S (stable_count st))) as [Hle|Hlt];
    [|discriminate].
  intros [= <-]. exists c. repeat split; try done. lia.
Qed.

(** What a [Continue] of the stability block tells: the poll confirmed
    nothing and the state is kept, or it confirmed the candidate again,
    or it started a new streak of length one. *)
Lemma stability_step_Continue (st st' : LoopState) (p : Poll) :
  stability_step st (candidate_at b p) = Continue st' →
  (confirmation_at b p = None ∧ st' = st)
  ∨ (∃ t, confirmation_at b p = Some t
          ∧ last_text st = Some t
          ∧ st' = {| stable_count := S (stable_count st);
                     last_text := Some t |})
  ∨ (∃ t, confirmation_at b p = Some t
          ∧ last_text st ≠ Some t
          ∧ st' = {| stable_count := 1; last_text := Some t |}).
Proof.
  unfold stability_step, confirmation_at.
  destruct (candidate_at b p) as [c|]; [|intros [= <-]; by left].
  destruct (truthy c) eqn:Hc; [|intros [= <-]; by left].
  case_bool_decide as Heq.
  - destruct (3 <=? S (stable_count st))%nat; [discriminate|].
    intros [= <-]. right. left. exists c. rewrite <- Heq. done.
  - intros [= <-]. right. right. exists c. by repeat split.
Qed.

(** The loop returns an answer at one poll, from a state reached over
    the polls before it. *)
Lemma poll_loop_answer (trace : list Poll) (st : LoopState)
    (log : list Event) (answer : str) :
  poll_loop b deadline trace st = (log, Ok (Returned (Some answer))) →
  ∃ earlier p later st',
    trace = earlier ++ p :: later
    ∧ stability_step st' (candidate_at b p) = Return answer.
Proof.
  revert st log. induction trace as [|p rest IH]; intros st log.
  - discriminate.
  - rewrite poll_loop_cons. destruct (poll_now p <? deadline)%Z;
      [|discriminate].
    destruct (stability_step st (candidate_at b p)) as [st'|a] eqn:Hstep.
    + destruct (poll_loop b deadline rest st') as [log' r] eqn:Hrest.
      intros [= <- ->].
      destruct (IH _ _ Hrest) as (earlier & q & later & st'' & -> & Hq).
      by exists (p :: earlier), q, later, st''.
    + intros [= <- <-]. by exists [], p, rest, st.
Qed.

End PollLoop.

(** C3: an answer the poll loop returns is the candidate of the poll that
    reports it, with the follow-up reminder appended; that text occurs
    more often in the reporting snapshot than in the baseline, or it is
    the last text of the reporting snapshot produced by the in-place
    fallback (the primary rule found nothing, the baseline has a last
    text different from it, and the snapshot differs from the baseline).
    A snapshot equal to the baseline yields no candidate. *)
Theorem reported_answer_is_new_or_fallback (B : list str) (deadline : Z)
    (trace : list Poll) (st : LoopState) (log : list Event) (answer : str) :
  poll_loop (capture_baseline B) deadline trace st
    = (log, Ok (Returned (Some answer))) →
  (∃ earlier p later t,
     trace = earlier ++ p :: later
     ∧ _collect_responses (poll_page p) = Ok (snapshot_of (poll_page p))
     ∧ candidate_at (capture_baseline B) p = Some t
     ∧ answer = t ++ FOLLOW_UP_REMINDER
     ∧ (occurrences t B < occurrences t (snapshot_of (poll_page p))
        ∨ (primary_candidate (capture_baseline B) (snapshot_of (poll_page p))
             = None
           ∧ ∃ previous_last,
               last B = Some previous_last
               ∧ last (snapshot_of (poll_page p)) = Some t
               ∧ t ≠ previous_last
               ∧ snapshot_of (poll_page p) ≠ B)))
  ∧ find_candidate (capture_baseline B) B = None.
Proof.
  intros Hrun. split; [|apply find_candidate_unchanged].
  apply poll_loop_answer in Hrun
    as (earlier & p & later & st' & -> & Hstep).
  apply stability_step_Return in Hstep as (t & Hc & _ & _ & _ & ->).
  exists earlier, p, later, t.
  split; [reflexivity|]. split; [apply _collect_responses_snapshot|].
  split; [exact Hc|]. split; [reflexivity|].
  by apply find_candidate_Some.
Qed.

Lemma reported_answer_is_new_or_fallback_witness :
  (∃ earlier p later t,
     Examples.trace_settling = earlier ++ p :: later
     ∧ _collect_responses (poll_page p) = Ok (snapshot_of (poll_page p))
     ∧ candidate_at (capture_baseline [Examples.hi]) p = Some t
     ∧ Examples.done_text ++ FOLLOW_UP_REMINDER = t ++ FOLLOW_UP_REMINDER
     ∧ (occurrences t [Examples.hi]
          < occurrences t (snapshot_of (poll_page p))
        ∨ (primary_candidate (capture_baseline [Examples.hi])
             (snapshot_of (poll_page p)) = None
           ∧ ∃ previous_last,
               last [Examples.hi] = Some previous_last
               ∧ last (snapshot_of (poll_page p)) = Some t
               ∧ t ≠ previous_last
               ∧ snapshot_of (poll_page p) ≠ [Examples.hi])))
  ∧ find_candidate (capture_baseline [Examples.hi]) [Examples.hi] = None.
Proof.
  apply (reported_answer_is_new_or_fallback [Examples.hi] 120000
           Examples.trace_settling initial_state
           [EvSleep 800; EvSleep 800; EvSleep 800; EvPrint MsgGotAnswer]
           (Examples.done_text ++ FOLLOW_UP_REMINDER)).
  vm_compute. reflexivity.
Defined.

(** ** Stability tracking *)

Lemma confirmations_cons (b : Baseline) (p : Poll) (trace : list Poll) :
  confirmations b (p :: trace)
  = match confirmation_at b p with
    | Some c => c :: confirmations b trace
    | None => confirmations b trace
    end.
Proof. reflexivity. Qed.

(** If the counter stands at [n] for the text [t], the last [n]
    confirmations seen were all [t]; the loop returns when a third one in
    a row arrives. *)
Lemma poll_loop_streak (b : Baseline) (deadline : Z) (trace : list Poll)
    (st : LoopState) (seen : list str) (log : list Event) (answer : str) :
  (∀ t, last_text st = Some t →
        ∃ seen', seen = seen' ++ replicate (stable_count st) t) →
  poll_loop b deadline trace st = (log, Ok (Returned (Some answer))) →
  ∃ earlier p later t seen',
    trace = earlier ++ p :: later
    ∧ answer = t ++ FOLLOW_UP_REMINDER
    ∧ snd (poll_loop b deadline earlier st) = Ok StillPolling
    ∧ seen ++ confirmations b (earlier ++ [p]) = seen' ++ [t; t; t].
Proof.
  revert st seen log. induction trace as [|p rest IH]; intros st seen log Hinv.
  - discriminate.
  - rewrite poll_loop_cons.
    destruct (poll_now p <? deadline)%Z eqn:Hnow; [|discriminate].
    destruct (stability_step st (candidate_at b p)) as [st'|a] eqn:Hstep.
    + destruct (poll_loop b deadline rest st') as [log' r] eqn:Hrest.
      intros [= <- ->].
      assert (∃ step, confirmations b [p] = step
                ∧ ∀ t, last_text st' = Some t →
                    ∃ seen', seen ++ step
                             = seen' ++ replicate (stable_count st') t)
        as (step & Hstep_eq & Hinv').
      { apply stability_step_Continue in Hstep
          as [[Hc ->]|[(t & Hc & Hlast & ->)|(t & Hc & Hlast & ->)]];
          rewrite confirmations_cons, Hc; simpl.
        - exists []. split; [reflexivity|]. rewrite app_nil_r. exact Hinv.
        - exists [t]. split; [reflexivity|]. intros t' [= <-].
          destruct (Hinv t Hlast) as [seen' ->].
          exists seen'. cbn [stable_count].
          by rewrite replicate_cons_app, app_assoc.
        - exists [t]. split; [reflexivity|]. intros t' [= <-].
          by exists seen. }
      destruct (IH st' (seen ++ step) log' Hinv' Hrest)
        as (earlier & q & later & t & seen' & -> & -> & Hstill & Hseen).
      exists (p :: earlier), q, later, t, seen'.
      split; [reflexivity|]. split; [reflexivity|]. split.
      * simpl app. rewrite poll_loop_cons, Hnow, Hstep.
        destruct (poll_loop b deadline earlier st'). exact Hstill.
      * rewrite <- Hseen, <- app_assoc. f_equal.
        change ((p :: earlier) ++ [q]) with ([p] ++ (earlier ++ [q])).
        unfold confirmations in *. rewrite omap_app, Hstep_eq. reflexivity.
    + intros [= <- <-].
      apply stability_step_Return in Hstep as (t & Hc & Ht & Hlast & Hn & ->).
      destruct (Hinv t Hlast) as [seen' ->].
      destruct (stable_count st) as [|[|n]]; [lia | lia |].
      exists [], p, rest, t, (seen' ++ replicate n t).
      split; [reflexivity|]. split; [reflexivity|]. split; [reflexivity|].
      change ([] ++ [p]) with [p]. rewrite confirmations_cons.
      unfold confirmation_at. rewrite Hc, Ht. simpl confirmations.
      rewrite !replicate_S_end, <- !app_assoc. reflexivity.
Qed.

(** C2 (as amended): the loop returns an answer only at a poll whose
    candidate is the third in a row among the candidates produced so far,
    the polls that produced no candidate being left out of the row: they
    change neither the counter nor the last observed text. A candidate
    that differs from the last observed text sets the counter to 1, also
    after two identical observations; the same candidate again raises the
    counter, and the loop returns when it reaches 3. *)
Theorem completion_needs_three_confirmations_in_a_row (B : list str)
    (deadline : Z) (trace : list Poll) (log : list Event) (answer : str) :
  poll_loop (capture_baseline B) deadline trace initial_state
    = (log, Ok (Returned (Some answer))) →
  (∃ earlier p later t seen,
     trace = earlier ++ p :: later
     ∧ answer = t ++ FOLLOW_UP_REMINDER
     ∧ snd (poll_loop (capture_baseline B) deadline earlier initial_state)
       = Ok StillPolling
     ∧ confirmations (capture_baseline B) (earlier ++ [p])
       = seen ++ [t; t; t])
  ∧ (∀ st c, truthy c = true → last_text st ≠ Some c →
       stability_step st (Some c)
       = Continue {| stable_count := 1; last_text := Some c |})
  ∧ (∀ st c, truthy c = true → last_text st = Some c →
       stability_step st (Some c)
       = if (2 <=? stable_count st)%nat
         then Return (c ++ FOLLOW_UP_REMINDER)
         else Continue {| stable_count := S (stable_count st);
                          last_text := Some c |})
  ∧ (∀ st, stability_step st None = Continue st).
Proof.
  intros Hrun. split; [|split; [|split]].
  - apply (poll_loop_streak _ _ _ _ []) in Hrun; [exact Hrun|].
    intros t [=].
  - intros st c Hc Hne. unfold stability_step. rewrite Hc.
    rewrite bool_decide_eq_false_2; [reflexivity|].
    intros H. by apply Hne.
  - intros st c Hc Heq. unfold stability_step. rewrite Hc.
    rewrite bool_decide_eq_true_2 by done.
    rewrite Heq. reflexivity.
  - reflexivity.
Qed.

Lemma completion_needs_three_confirmations_in_a_row_witness :
  (∃ earlier p later t seen,
     Examples.trace_interrupted = earlier ++ p :: later
     ∧ Examples.working ++ FOLLOW_UP_REMINDER = t ++ FOLLOW_UP_REMINDER
     ∧ snd (poll_loop (capture_baseline [Examples.hi]) 120000 earlier
              initial_state) = Ok StillPolling
     ∧ confirmations (capture_baseline [Examples.hi]) (earlier ++ [p])
       = seen ++ [t; t; t])
  ∧ (∀ st c, truthy c = true → last_text st ≠ Some c →
       stability_step st (Some c)
       = Continue {| stable_count := 1; last_text := Some c |})
  ∧ (∀ st c, truthy c = true → last_text st = Some c →
       stability_step st (Some c)
       = if (2 <=? stable_count st)%nat
         then Return (c ++ FOLLOW_UP_REMINDER)
         else Continue {| stable_count := S (stable_count st);
                          last_text := Some c |})
  ∧ (∀ st, stability_step st None = Continue st).
Proof.
  apply (completion_needs_three_confirmations_in_a_row [Examples.hi] 120000
           Examples.trace_interrupted
           [EvSleep 800; EvSleep 800; EvSleep 800; EvPrint MsgGotAnswer]
           (Examples.working ++ FOLLOW_UP_REMINDER)).
  vm_compute. reflexivity.
Defined.

(** The interrupted run: the text is seen at polls 1, 2 and 4, nothing is
    read at poll 3, and completion is declared at poll 4. *)
Lemma interrupted_streak_completes :
  ¬ completion_needs_three_consecutive_polls.
Proof.
  intros Hclaim.
  destruct (Hclaim [Examples.hi] 120000%Z Examples.trace_interrupted
              [EvSleep 800; EvSleep 800; EvSleep 800; EvPrint MsgGotAnswer]
              (Examples.working ++ FOLLOW_UP_REMINDER))
    as (earlier & p1 & p2 & p3 & later & t & Htrace & _ & _ & H1 & H2 & H3).
  { vm_compute. reflexivity. }
  unfold Examples.trace_interrupted in Htrace.
  destruct earlier as [|e0 [|e1 earlier]]; simpl in Htrace.
  - injection Htrace as <- <- <- _.
    vm_compute in H3. discriminate H3.
  - injection Htrace as _ <- <- _.
    vm_compute in H2. discriminate H2.
  - injection Htrace as _ _ Htrace.
    apply (f_equal length) in Htrace. rewrite length_app in Htrace.
    simpl in Htrace. lia.
Qed.

(** The two scenarios of the specification. *)
Example settling_answer_is_returned :
  snd (poll_loop (capture_baseline [Examples.hi]) 120000
         Examples.trace_settling initial_state)
  = Ok (Returned (Some (Examples.done_text ++ FOLLOW_UP_REMINDER))).
Proof. vm_compute. reflexivity. Qed.

Example duplicate_answer_is_returned :
  snd (poll_loop (capture_baseline [Examples.answer_a; Examples.answer_a])
         120000
         [ Examples.showing 800
             [Examples.answer_a; Examples.answer_a; Examples.answer_a] false;
           Examples.showing 1600
             [Examples.answer_a; Examples.answer_a; Examples.answer_a] false;
           Examples.showing 2400
             [Examples.answer_a; Examples.answer_a; Examples.answer_a] false ]
         initial_state)
  = Ok (Returned (Some (Examples.answer_a ++ FOLLOW_UP_REMINDER))).
Proof. vm_compute. reflexivity. Qed.

(** ** The thinking indicator *)

Lemma collect_texts_agree (els1 els2 : list Element) (acc : list str) :
  Forall2 same_but_visibility els1 els2 →
  collect_texts els1 acc = collect_texts els2 acc.
Proof.
  intros H. revert acc.
  induction H as [|e1 e2 els1 els2 He _ IH]; intros acc; simpl.
  - reflexivity.
  - unfold same_but_visibility in He. rewrite He.
    destruct (inner_text e2) as [raw|e]; simpl; [apply IH | reflexivity].
Qed.

Lemma selector_texts_of_agree (p1 p2 : Page) (selector : string) :
  agree_up_to_visibility p1 p2 →
  selector_texts_of p1 selector = selector_texts_of p2 selector.
Proof.
  intros H. specialize (H selector). unfold selector_texts_of, res_rel in *.
  destruct (query_selector_all p1 selector) as [els1|e1],
           (query_selector_all p2 selector) as [els2|e2];
    simpl; try done.
  - by apply collect_texts_agree.
  - by rewrite H.
Qed.

Lemma snapshot_of_agree (p1 p2 : Page) :
  agree_up_to_visibility p1 p2 → snapshot_of p1 = snapshot_of p2.
Proof.
  intros H. unfold snapshot_of, _collect_responses.
  induction Config.RESPONSE_SELECTORS as [|selector selectors IH]; simpl.
  - reflexivity.
  - rewrite (selector_texts_of_agree p1 p2 selector H).
    destruct (selector_texts_of p2 selector) as [[|t ts]|e];
      [exact IH | reflexivity | exact IH].
Qed.

(** Polls on pages that agree on every lookup except for what
    [is_visible] answers are alike up to the thinking indicator. *)
Lemma same_poll_up_to_visibility_thinking (p1 p2 : Poll) :
  same_poll_up_to_visibility p1 p2 → same_poll_up_to_thinking p1 p2.
Proof.
  intros [Hnow Hpage]. split; [exact Hnow|].
  rewrite !_collect_responses_snapshot.
  by rewrite (snapshot_of_agree _ _ Hpage).
Qed.

Lemma board_pages_agree (address : str) (texts : list str)
    (thinking1 thinking2 with_input : bool) :
  agree_up_to_visibility
    (Examples.board_page address texts thinking1 with_input)
    (Examples.board_page address texts thinking2 with_input).
Proof.
  intros selector. unfold Examples.board_page. cbn [query_selector_all].
  destruct (String.eqb selector "div.message-blocks").
  - simpl. induction texts as [|t texts IH]; by constructor.
  - destruct (String.eqb selector "div.thinking-message"); simpl;
      by repeat constructor.
Qed.

(** C9: the thinking indicator is advisory. Take two runs of the poll
    loop whose polls read the clock alike and on whose pages the
    response reader returns the same texts. Whatever the thinking
    lookups do in either run (the indicator is visible, hidden or absent,
    or its lookup raises, in one run and not in the other), the two runs
    log the same events and end alike: with the same answer, the same
    timeout, or both still polling. So a visible indicator never holds a
    stable candidate back, and an absent one never brings completion
    about. *)
Theorem thinking_indicator_is_advisory (b : Baseline) (deadline : Z)
    (trace1 trace2 : list Poll) (st : LoopState) :
  Forall2 same_poll_up_to_thinking trace1 trace2 →
  poll_loop b deadline trace1 st = poll_loop b deadline trace2 st.
Proof.
  intros H. revert st.
  induction H as [|p1 p2 rest1 rest2 [Hnow Hpage] _ IH]; intros st.
  - reflexivity.
  - rewrite !poll_loop_cons, Hnow. unfold candidate_at, snapshot_of.
    rewrite Hpage.
    destruct (poll_now p2 <? deadline)%Z; [|reflexivity].
    match goal with
    | |- context [stability_step st ?c] =>
        destruct (stability_step st c) as [st'|answer]; [|reflexivity]
    end.
    by rewrite IH.
Qed.

Lemma thinking_indicator_is_advisory_witness :
  poll_loop (capture_baseline [Examples.hi]) 120000
    Examples.trace_settling initial_state
  = poll_loop (capture_baseline [Examples.hi]) 120000
      Examples.trace_settling_other_indicator initial_state.
Proof.
  apply (thinking_indicator_is_advisory (capture_baseline [Examples.hi])
           120000 Examples.trace_settling
           Examples.trace_settling_other_indicator initial_state).
  repeat constructor; vm_compute; reflexivity.
Defined.

(** The two runs of the witness differ in what the thinking lookups do
    at every poll. *)
Example thinking_lookups_differ :
  map (λ p, _is_thinking (poll_page p)) Examples.trace_settling
    = [Ok true; Ok true; Ok false; Ok false]
  ∧ map (λ p, _is_thinking (poll_page p))
      Examples.trace_settling_other_indicator
    = [Ok false; Ok false; Ok true; Ok true]
  ∧ query_selector_all (Examples.plain_page [Examples.hi] true)
      "div.thinking-message" = Raise Examples.context_destroyed.
Proof. vm_compute. done. Qed.

(** The indicator is read: it is reported visible on the first page and
    hidden on the second. *)
Example thinking_indicator_is_read :
  _is_thinking (Examples.board_page Examples.board_url [] true true) = Ok true
  ∧ _is_thinking (Examples.board_page Examples.board_url [] false true)
    = Ok false.
Proof. vm_compute. split; reflexivity. Qed.

(** ** The click helper *)

(** Once the first lookup has answered, the helper hands a boolean back
    whatever the later calls do. *)
Lemma realistic_click_returns (page : Page) (selector : string)
    (found : option Element) :
  query_selector page selector = Ok found →
  ∃ log clicked,
    StealthUtils.realistic_click page selector = (log, Ok clicked).
Proof.
  intros Hq.
  unfold StealthUtils.realistic_click, StealthUtils._resolve_visible_element.
  rewrite Hq.
  destruct found as [el|]; cbn [mbind Res_bind];
    [destruct (is_visible el) as [[|]|?]|];
    try destruct (wait_for_selector page selector) as [[el'|]|?];
    cbn; click_cases; by eexists _, _.
Qed.

(** The failures the helper does absorb: no element, a failing
    [bounding_box], a failing [click]. *)
Lemma realistic_click_absorbs (page : Page) (selector : string)
    (el : Element) :
  (query_selector page selector = Ok None →
   raises (wait_for_selector page selector) →
   StealthUtils.realistic_click page selector = ([], Ok false))
  ∧ (query_selector page selector = Ok (Some el) →
     is_visible el = Ok true →
     raises (bounding_box el) →
     click el = Ok tt →
     StealthUtils.realistic_click page selector
     = ([EvRandomDelay 80 220; EvClick; EvRandomDelay 80 220], Ok true))
  ∧ (query_selector page selector = Ok (Some el) →
     is_visible el = Ok true →
     raises (click el) →
     ∃ log, StealthUtils.realistic_click page selector = (log, Ok false)).
Proof.
  unfold StealthUtils.realistic_click, StealthUtils._resolve_visible_element.
  split; [|split].
  - intros -> Hw. by destruct (wait_for_selector page selector).
  - intros -> Hv Hb Hc. cbn [mbind Res_bind]. rewrite Hv. cbn.
    destruct (bounding_box el); [done|]. cbn. by rewrite Hc.
  - intros -> Hv Hc. cbn [mbind Res_bind]. rewrite Hv. cbn.
    destruct (click el); [done|]. click_cases; by eexists.
Qed.

(** C8: the click helper does propagate an exception: its first call,
    [page.query_selector], is made outside every [try], so on a page where
    that lookup raises (here: a page in the middle of a navigation) the
    exception leaves [realistic_click]; the statement that it hands a
    boolean back on every page is false. *)
Theorem realistic_click_propagates_lookup_error :
  StealthUtils._resolve_visible_element Examples.navigating_page
    "button[aria-label*='Send']"
  = Raise Examples.context_destroyed
  ∧ StealthUtils.realistic_click Examples.navigating_page
      "button[aria-label*='Send']"
    = ([], Raise Examples.context_destroyed)
  ∧ ¬ click_never_raises.
Proof.
  split; [reflexivity|]. split; [reflexivity|].
  intros Hclaim.
  destruct (Hclaim Examples.navigating_page "button[aria-label*='Send']")
    as (log & clicked & H).
  discriminate H.
Qed.

(** ** The session driver *)








Example url_notions_examples :
  url_host Examples.board_url = lit "youmind.com"
  ∧ target_domain = lit "youmind.com"
  ∧ in_target_domain Examples.board_url = true
  ∧ in_target_domain (lit "https://www.youmind.com/boards/b1") = true
  ∧ in_target_domain (lit "https://user@youmind.com:443/boards/b1") = true
  ∧ in_target_domain Examples.foreign_url = false
  ∧ in_target_domain (lit "https://notyoumind.com.evil.org/boards/b1") = false
  ∧ in_target_domain (lit "https://youmind.com@evil.org/") = false
  ∧ in_target_domain Examples.login_url = false
  ∧ is_sign_in_redirect Examples.sign_in_url = true
  ∧ is_sign_in_redirect Examples.board_url = false.
Proof. vm_compute. repeat split. Qed.

(** The test of the script and the URL notions part ways in both
    directions: a board of the target domain whose name holds sign-in is
    refused, and a foreign page that names youmind.com is not. *)
Example redirect_test_is_textual :
  in_target_domain (lit "https://youmind.com/boards/design-inbox") = true
  ∧ is_sign_in_redirect (lit "https://youmind.com/boards/design-inbox")
    = false
  ∧ redirected_to_sign_in
      (Examples.board_page (lit "https://youmind.com/boards/design-inbox")
         [] false true) = true
  ∧ in_target_domain Examples.foreign_url = false
  ∧ redirected_to_sign_in
      (Examples.board_page Examples.foreign_url [] false true) = false.
Proof. vm_compute. repeat split. Qed.

(** The redirect test reads substrings of the URL. *)
Example redirect_test_examples :
  redirected_to_sign_in
    (Examples.board_page Examples.board_url [] false true) = false
  ∧ redirected_to_sign_in
      (Examples.board_page Examples.sign_in_url [] false true) = true
  ∧ redirected_to_sign_in
      (Examples.board_page (lit "https://accounts.example.org/login")
         [] false true) = true
  ∧ redirected_to_sign_in
      (Examples.board_page (lit "https://example.org/?from=youmind.com")
         [] false true) = false.
Proof. vm_compute. repeat split. Qed.

(** ** The deadline *)

Section Deadline.

Variable b : Baseline.
Variable deadline : Z.

(** A run that is still polling after [seen] goes on from some state
    with the polls that follow. *)
Lemma poll_loop_app (seen : list Poll) (st : LoopState) (log : list Event) :
  poll_loop b deadline seen st = (log, Ok StillPolling) →
  ∃ st', ∀ more,
    poll_loop b deadline (seen ++ more) st
    = (log ++ fst (poll_loop b deadline more st'),
       snd (poll_loop b deadline more st')).
Proof.
  revert st log. induction seen as [|p seen IH]; intros st log.
  - intros [= <-]. exists st. intros more. simpl.
    by destruct (poll_loop b deadline more st).
  - rewrite poll_loop_cons.
    destruct (poll_now p <? deadline)%Z eqn:Hnow; [|discriminate].
    destruct (stability_step st (candidate_at b p)) as [st'|a] eqn:Hstep;
      [|discriminate].
    destruct (poll_loop b deadline seen st') as [log' r] eqn:Hseen.
    intros [= <- ->]. destruct (IH _ _ Hseen) as [st'' Hmore].
    exists st''. intros more. simpl app.
    rewrite poll_loop_cons, Hnow, Hstep, Hmore. reflexivity.
Qed.

(** At the first clock reading that is not before the deadline the loop
    gives up. *)
Lemma poll_loop_deadline (seen : list Poll) (p : Poll) (later : list Poll)
    (st : LoopState) (log : list Event) :
  poll_loop b deadline seen st = (log, Ok StillPolling) →
  (deadline ≤ poll_now p)%Z →
  poll_loop b deadline (seen ++ p :: later) st
  = (log ++ [EvPrint MsgTimeout], Ok (Returned None)).
Proof.
  intros Hseen Hlate. destruct (poll_loop_app _ _ _ Hseen) as [st' ->].
  rewrite poll_loop_cons.
  destruct (Z.ltb_spec (poll_now p) deadline) as [Hlt|_]; [lia|].
  reflexivity.
Qed.

(** Once a reading of the clock is not before the deadline the loop has
    returned, with an answer or without. *)
Lemma poll_loop_returns_once_late (trace : list Poll) (st : LoopState) :
  Exists (λ p, (deadline ≤ poll_now p)%Z) trace →
  ∃ log answer, poll_loop b deadline trace st = (log, Ok (Returned answer)).
Proof.
  intros H. revert st.
  induction H as [p rest Hlate|p rest _ IH]; intros st;
    rewrite poll_loop_cons.
  - destruct (Z.ltb_spec (poll_now p) deadline) as [Hlt|_]; [lia|].
    by eexists _, _.
  - destruct (poll_now p <? deadline)%Z; [|by eexists _, _].
    destruct (stability_step st (candidate_at b p)) as [st'|answer];
      [|by eexists _, _].
    destruct (IH st') as (log & answer & ->). by eexists _, _.
Qed.

End Deadline.

(** The session either ends before the poll loop, whatever the polls are,
    or runs the poll loop after a fixed prefix of events. *)
Lemma ask_session_polls (w : World) (q u : str) :
  (∃ log0 r,
     r ≠ Ok StillPolling
     ∧ ∀ trace, ask_session (with_polls w trace) q u = (log0, r))
  ∨ (∃ log0 b,
       ∀ trace,
         ask_session (with_polls w trace) q u
         = (log0 ++ fst (poll_loop b (time_at_submit w + 120000) trace
                           initial_state),
            snd (poll_loop b (time_at_submit w + 120000) trace
                   initial_state))).
Proof.
  unfold ask_session. cbn [with_polls playwright_start
    launch_persistent_context new_page goto loaded_page submitted_page
    hesitations time_at_submit polls].
  destruct (playwright_start w) as [[]|?]; session_step; [|session_ends].
  destruct (launch_persistent_context w) as [[]|?]; session_step;
    [|session_ends].
  destruct (new_page w) as [[]|?]; session_step; [|session_ends].
  destruct (goto w) as [[]|?]; session_step; [|session_ends].
  destruct (redirected_to_sign_in (loaded_page w)); session_step;
    [session_ends|].
  rewrite _collect_responses_snapshot. session_step.
  destruct (_find_input_selector (loaded_page w)) as [[[|a s]|]|?];
    session_step; [session_ends | | session_ends | session_ends].
  destruct (StealthUtils.realistic_click (loaded_page w) (String a s))
    as [log1 [clicked|?]]; session_step; [|session_ends].
  destruct (StealthUtils.human_type (loaded_page w) (hesitations w)
              (String a s) q 220 320) as [log2 [[]|?]]; session_step;
    [|session_ends].
  destruct (keyboard_press (loaded_page w) "Enter") as [[]|?]; session_step;
    [|session_ends].
  destruct (click_send_from_total (submitted_page w)
              Config.SEND_BUTTON_SELECTORS) as [log3 Hsend].
  rewrite Hsend. session_step.
  right. eexists _, (capture_baseline (snapshot_of (loaded_page w))).
  intros trace.
  destruct (poll_loop _ _ trace initial_state) as [log r]. cbn [fst snd].
  f_equal. rewrite !app_assoc. reflexivity.
Qed.

(** C5: a run that is still polling after the polls [seen] (no candidate
    has reached the threshold) and whose next reading of the clock is not
    before the deadline, 120 s after submission, ends there: the poll loop
    prints the timeout message and [ask_youmind] returns no answer,
    whatever candidate was being tracked. *)
Theorem deadline_without_stable_candidate_is_timeout (w : World) (q u : str)
    (h : bool) (seen : list Poll) (p : Poll) (later : list Poll) :
  snd (ask_youmind (with_polls w seen) q u h) = StillPolling →
  (time_at_submit w + 120000 ≤ poll_now p)%Z →
  snd (ask_youmind (with_polls w (seen ++ p :: later)) q u h) = Returned None
  ∧ printed MsgTimeout
      (fst (ask_youmind (with_polls w (seen ++ p :: later)) q u h))
  ∧ ∃ b log,
      poll_loop b (time_at_submit w + 120000) seen initial_state
      = (log, Ok StillPolling)
      ∧ poll_loop b (time_at_submit w + 120000) (seen ++ p :: later)
          initial_state
        = (log ++ [EvPrint MsgTimeout], Ok (Returned None)).
Proof.
  unfold ask_youmind. cbn [with_polls is_authenticated].
  destruct (is_authenticated w); [|discriminate].
  destruct (ask_session_polls w q u)
    as [(log0 & r & Hr & Hall)|(log0 & b & Hall)].
  - rewrite !Hall. by destruct r as [[answer|]|e].
  - rewrite !Hall.
    destruct (poll_loop_total b (time_at_submit w + 120000) seen
                initial_state) as (log & outcome & Hseen).
    rewrite Hseen. cbn [fst snd].
    destruct outcome as [answer|]; [discriminate|].
    intros _ Hlate.
    pose proof (poll_loop_deadline b _ seen p later initial_state log
                  Hseen Hlate) as Hrun.
    rewrite Hrun. cbn [fst snd]. split; [reflexivity|]. split.
    + unfold printed. rewrite !in_app_iff. simpl. tauto.
    + by exists b, log.
Qed.

Lemma deadline_without_stable_candidate_is_timeout_witness :
  snd (ask_youmind
         (with_polls
            (Examples.session Examples.board_url [Examples.hi] true [])
            (Examples.trace_unsettled ++ Examples.late_poll :: []))
         (lit "Why?") Examples.board_url true) = Returned None
  ∧ printed MsgTimeout
      (fst (ask_youmind
              (with_polls
                 (Examples.session Examples.board_url [Examples.hi] true [])
                 (Examples.trace_unsettled ++ Examples.late_poll :: []))
              (lit "Why?") Examples.board_url true))
  ∧ ∃ b log,
      poll_loop b
        (time_at_submit
           (Examples.session Examples.board_url [Examples.hi] true [])
         + 120000)
        Examples.trace_unsettled initial_state
      = (log, Ok StillPolling)
      ∧ poll_loop b
          (time_at_submit
             (Examples.session Examples.board_url [Examples.hi] true [])
           + 120000)
          (Examples.trace_unsettled ++ Examples.late_poll :: [])
          initial_state
        = (log ++ [EvPrint MsgTimeout], Ok (Returned None)).
Proof.
  apply (deadline_without_stable_candidate_is_timeout
           (Examples.session Examples.board_url [Examples.hi] true [])
           (lit "Why?") Examples.board_url true
           Examples.trace_unsettled Examples.late_poll []).
  - vm_compute. reflexivity.
  - vm_compute. discriminate.
Defined.

(** Two polls confirm the same text, so the counter stands at 2 when the
    deadline passes: the text is not returned. *)
Example unsettled_run_times_out :
  ask_youmind
    (Examples.session Examples.board_url [Examples.hi] true
       (Examples.trace_unsettled ++ [Examples.late_poll]))
    [] Examples.board_url true
  = ([ EvPrint (MsgAsking []); EvPrint (MsgBoard Examples.board_url);
       EvPrint MsgOpeningBoard; EvGoto Examples.board_url;
       EvPrint (MsgFoundChatInput "textarea[placeholder*='Ask']");
       EvMouseMove (320 # 2) (80 # 2); EvRandomDelay 80 220; EvClick;
       EvRandomDelay 80 220; EvClick;
       EvPrint MsgSubmitting; EvKeyPress "Enter"; EvSleep 600;
       EvPrint MsgWaiting; EvSleep 800; EvSleep 800; EvPrint MsgTimeout;
       EvCloseContext; EvStopPlaywright ],
     Returned None).
Proof. vm_compute. reflexivity. Qed.

(** * Further properties of the scripts *)

(** ** Selector lists: what is found, and in which order *)

Lemma find_input_selector_from_Some (page : Page) (selectors : list string)
    (sel : string) :
  find_input_selector_from selectors page = Ok (Some sel) ↔
  ∃ skipped rest,
    selectors = skipped ++ sel :: rest
    ∧ (∀ s, s ∈ skipped → raises (wait_for_selector page s))
    ∧ ¬ raises (wait_for_selector page sel).
Proof.
  induction selectors as [|selector selectors IH]; simpl.
  - split; [discriminate|]. intros (skipped & rest & H & _).
    by destruct skipped.
  - destruct (wait_for_selector page selector) as [found|e] eqn:Hw.
    + split.
      * intros [= <-]. exists [], selectors. split; [reflexivity|].
        split; [intros s Hs; inversion Hs | rewrite Hw; simpl; tauto].
      * intros (skipped & rest & Hsel & Hskip & Hok).
        destruct skipped as [|s0 skipped]; simpl in Hsel.
        -- by injection Hsel as ->.
        -- injection Hsel as -> _.
           specialize (Hskip s0 (list_elem_of_here _ _)).
           by rewrite Hw in Hskip.
    + rewrite IH. split.
      * intros (skipped & rest & -> & Hskip & Hok).
        exists (selector :: skipped), rest. split; [reflexivity|].
        split; [|exact Hok]. intros s Hs.
        apply elem_of_cons in Hs as [->|Hs]; [by rewrite Hw | by apply Hskip].
      * intros (skipped & rest & Hsel & Hskip & Hok).
        destruct skipped as [|s0 skipped]; simpl in Hsel.
        -- injection Hsel as -> _. exfalso. apply Hok. by rewrite Hw.
        -- injection Hsel as -> ->. exists skipped, rest.
           split; [reflexivity|]. split; [|exact Hok].
           intros s Hs. apply Hskip. by apply list_elem_of_further.
Qed.

(** X1: the input lookup returns the first selector of the list, in list
    order, whose wait does not raise: every selector before it raised.
    It returns no selector exactly when every wait raised. What it
    returns for the configured list is never the empty string, so the
    caller's [if not input_selector] only catches [None]. *)
Theorem input_lookup_returns_first_usable (page : Page)
    (selectors : list string) :
  (∀ sel,
     find_input_selector_from selectors page = Ok (Some sel) ↔
     ∃ skipped rest,
       selectors = skipped ++ sel :: rest
       ∧ (∀ s, s ∈ skipped → raises (wait_for_selector page s))
       ∧ ¬ raises (wait_for_selector page sel))
  ∧ (find_input_selector_from selectors page = Ok None ↔
     ∀ s, s ∈ selectors → raises (wait_for_selector page s))
  ∧ (∀ sel, _find_input_selector page = Ok (Some sel) →
       sel ∈ Config.QUERY_INPUT_SELECTORS ∧ sel ≠ EmptyString).
Proof.
  split; [intros sel; apply find_input_selector_from_Some|]. split.
  - split; [|apply find_input_selector_from_none].
    induction selectors as [|selector selectors IH]; simpl.
    + intros _ s Hs. inversion Hs.
    + destruct (wait_for_selector page selector) as [found|e] eqn:Hw;
        [discriminate|].
      intros H s Hs. apply elem_of_cons in Hs as [->|Hs];
        [by rewrite Hw | by apply IH].
  - intros sel Hsel. unfold _find_input_selector in Hsel.
    apply find_input_selector_from_Some in Hsel
      as (skipped & rest & Hlist & _ & _).
    assert (sel ∈ Config.QUERY_INPUT_SELECTORS) as Hin.
    { rewrite Hlist. apply elem_of_app. right. apply list_elem_of_here. }
    split; [exact Hin|].
    unfold Config.QUERY_INPUT_SELECTORS in Hin.
    repeat (apply elem_of_cons in Hin as [->|Hin]; [discriminate|]).
    inversion Hin.
Qed.

(** X2: a non-empty snapshot comes from one selector only, the first of
    the configured list that yields a text, every selector before it
    having failed; its texts are the stripped texts of all the elements
    that selector matched, in the order of the match, with the blank ones
    left out. Texts of different selectors are never mixed. *)
Theorem snapshot_is_first_productive_selector (page : Page)
    (texts : list str) :
  _collect_responses page = Ok texts →
  texts ≠ [] →
  ∃ skipped sel rest elements raws,
    Config.RESPONSE_SELECTORS = skipped ++ sel :: rest
    ∧ (∀ s, s ∈ skipped → failed_pattern (selector_texts_of page s))
    ∧ query_selector_all page sel = Ok elements
    ∧ Forall2 (λ el raw, inner_text el = Ok raw) elements raws
    ∧ texts = List.filter truthy (map strip raws).
Proof.
  intros Hrun Hne.
  destruct (collect_responses_from_first page _ _ Hrun Hne)
    as (skipped & sel & rest & Hlist & Hfailed & Hsel).
  unfold selector_texts_of in Hsel.
  destruct (query_selector_all page sel) as [elements|e] eqn:Hq;
    [|discriminate].
  simpl in Hsel. apply collect_texts_spec in Hsel as (raws & Hraws & ->).
  by exists skipped, sel, rest, elements, raws.
Qed.

Lemma snapshot_is_first_productive_selector_witness :
  ∃ skipped sel rest elements raws,
    Config.RESPONSE_SELECTORS = skipped ++ sel :: rest
    ∧ (∀ s, s ∈ skipped →
            failed_pattern (selector_texts_of Examples.layered_page s))
    ∧ query_selector_all Examples.layered_page sel = Ok elements
    ∧ Forall2 (λ el raw, inner_text el = Ok raw) elements raws
    ∧ [Examples.answer_a] = List.filter truthy (map strip raws).
Proof.
  apply (snapshot_is_first_productive_selector Examples.layered_page
           [Examples.answer_a]).
  - vm_compute. reflexivity.
  - discriminate.
Defined.

Lemma any_visible_true (nodes : list Element) :
  any_visible nodes = Ok true ↔
  ∃ before node after,
    nodes = before ++ node :: after
    ∧ (∀ n, n ∈ before → is_visible n = Ok false)
    ∧ is_visible node = Ok true.
Proof.
  induction nodes as [|n nodes IH]; simpl.
  - split; [discriminate|]. intros (before & ? & ? & H & _).
    by destruct before.
  - destruct (is_visible n) as [[|]|e] eqn:Hn; simpl.
    + split; [|reflexivity]. intros _. exists [], n, nodes.
      split; [reflexivity|]. split; [intros m Hm; inversion Hm | exact Hn].
    + rewrite IH. split.
      * intros (before & node & after & -> & Hb & Hv).
        exists (n :: before), node, after. split; [reflexivity|].
        split; [|exact Hv]. intros m Hm.
        apply elem_of_cons in Hm as [->|Hm]; [exact Hn | by apply Hb].
      * intros (before & node & after & Hl & Hb & Hv).
        destruct before as [|b0 before]; simpl in Hl.
        -- injection Hl as -> _. congruence.
        -- injection Hl as -> ->. exists before, node, after.
           split; [reflexivity|]. split; [|exact Hv].
           intros m Hm. apply Hb. by apply list_elem_of_further.
    + split; [discriminate|].
      intros (before & node & after & Hl & Hb & Hv).
      destruct before as [|b0 before]; simpl in Hl.
      * injection Hl as -> _. congruence.
      * injection Hl as -> _.
        specialize (Hb b0 (list_elem_of_here _ _)). congruence.
Qed.

(** X3: the thinking check answers true exactly when, for one of its
    selectors, the lookup succeeds and some matched node is visible while
    every node before it answered that it is not. A node whose visibility
    cannot be read hides the nodes after it: the selector then counts as
    not thinking, like a lookup that raised. *)
Theorem thinking_needs_a_readable_visible_node (page : Page)
    (selectors : list string) :
  (is_thinking_from selectors page = Ok true ↔
   ∃ s nodes before node after,
     s ∈ selectors
     ∧ query_selector_all page s = Ok nodes
     ∧ nodes = before ++ node :: after
     ∧ (∀ n, n ∈ before → is_visible n = Ok false)
     ∧ is_visible node = Ok true)
  ∧ (∀ s nodes before node after,
       query_selector_all page s = Ok nodes →
       nodes = before ++ node :: after →
       (∀ n, n ∈ before → is_visible n = Ok false) →
       raises (is_visible node) →
       is_thinking_from (s :: selectors) page
       = is_thinking_from selectors page).
Proof.
  split.
  - induction selectors as [|selector selectors IH]; simpl.
    + split; [discriminate|]. intros (s & ? & ? & ? & ? & Hs & _).
      inversion Hs.
    + destruct (query_selector_all page selector ≫= any_visible)
        as [[|]|e] eqn:Hsel.
      * split; [|reflexivity]. intros _.
        destruct (query_selector_all page selector) as [nodes|e] eqn:Hq;
          [|discriminate].
        simpl in Hsel. apply any_visible_true in Hsel
          as (before & node & after & Hl & Hb & Hv).
        exists selector, nodes, before, node, after.
        split; [apply list_elem_of_here|]. by repeat split.
      * rewrite IH. split.
        -- intros (s & nodes & before & node & after & Hs & H).
           exists s, nodes, before, node, after.
           split; [by apply list_elem_of_further | exact H].
        -- intros (s & nodes & before & node & after & Hs & Hq & Hl & Hb & Hv).
           apply elem_of_cons in Hs as [->|Hs].
           ++ rewrite Hq in Hsel. simpl in Hsel.
              assert (any_visible nodes = Ok true) as Ht
                by (apply any_visible_true; by exists before, node, after).
              congruence.
           ++ by exists s, nodes, before, node, after.
      * rewrite IH. split.
        -- intros (s & nodes & before & node & after & Hs & H).
           exists s, nodes, before, node, after.
           split; [by apply list_elem_of_further | exact H].
        -- intros (s & nodes & before & node & after & Hs & Hq & Hl & Hb & Hv).
           apply elem_of_cons in Hs as [->|Hs].
           ++ rewrite Hq in Hsel. simpl in Hsel.
              assert (any_visible nodes = Ok true) as Ht
                by (apply any_visible_true; by exists before, node, after).
              congruence.
           ++ by exists s, nodes, before, node, after.
  - intros s nodes before node after Hq -> Hb Hr. simpl. rewrite Hq. simpl.
    assert (raises (any_visible (before ++ node :: after))) as Hraise.
    { clear Hq. induction before as [|b0 before IH]; simpl.
      - by destruct (is_visible node).
      - rewrite (Hb b0 (list_elem_of_here _ _)). simpl. apply IH.
        intros n Hn. apply Hb. by apply list_elem_of_further. }
    by destruct (any_visible (before ++ node :: after)).
Qed.

(** The second node is visible, but the first cannot be read. *)
Example unreadable_node_hides_visible_one :
  _is_thinking Examples.unreadable_indicator_page = Ok false.
Proof. vm_compute. reflexivity. Qed.

(** ** The interaction helpers *)

(** X4: the only exception that leaves the click helper is the one of
    its first lookup, [page.query_selector]: the helper raises exactly
    when that lookup raises, with the same exception, and has then done
    nothing on the page. The same holds of [_resolve_visible_element]. *)
Theorem realistic_click_raises_only_lookup_error (page : Page)
    (selector : string) (log : list Event) (e : exn) :
  (StealthUtils.realistic_click page selector = (log, Raise e) ↔
   log = [] ∧ query_selector page selector = Raise e)
  ∧ (StealthUtils._resolve_visible_element page selector = Raise e ↔
     query_selector page selector = Raise e).
Proof.
  split.
  - split.
    + intros Hrun.
      destruct (query_selector page selector) as [found|e'] eqn:Hq.
      * destruct (realistic_click_returns page selector found Hq)
          as (log' & clicked & Hret). congruence.
      * unfold StealthUtils.realistic_click,
          StealthUtils._resolve_visible_element in Hrun.
        rewrite Hq in Hrun. cbn in Hrun. by injection Hrun as <- <-.
    + intros [-> Hq].
      unfold StealthUtils.realistic_click,
        StealthUtils._resolve_visible_element.
      rewrite Hq. reflexivity.
  - unfold StealthUtils._resolve_visible_element.
    destruct (query_selector page selector) as [[el|]|e'] eqn:Hq;
      cbn [mbind Res_bind].
    + split; [|discriminate].
      destruct (is_visible el) as [[|]|?]; try discriminate.
      by destruct (wait_for_selector page selector).
    + split; [|discriminate].
      by destruct (wait_for_selector page selector).
    + split; congruence.
Qed.

(** X5: the click helper returns true exactly when an element was
    resolved and its [click()] did not raise, and false exactly when no
    element was resolved or the click raised; a failing [bounding_box] or
    pointer move changes neither. *)
Theorem realistic_click_true_iff_clicked (page : Page) (selector : string) :
  ((∃ log, StealthUtils.realistic_click page selector = (log, Ok true)) ↔
   ∃ el,
     StealthUtils._resolve_visible_element page selector = Ok (Some el)
     ∧ click el = Ok tt)
  ∧ ((∃ log, StealthUtils.realistic_click page selector = (log, Ok false)) ↔
     StealthUtils._resolve_visible_element page selector = Ok None
     ∨ ∃ el,
         StealthUtils._resolve_visible_element page selector = Ok (Some el)
         ∧ raises (click el)).
Proof.
  unfold StealthUtils.realistic_click.
  destruct (StealthUtils._resolve_visible_element page selector)
    as [[el|]|e]; cbn.
  - destruct (click el) as [[]|ec] eqn:Hc; click_cases;
      (split; split; intros H);
      repeat match goal with
        | H : ∃ _, _ |- _ => let H' := fresh in destruct H as [? H']
        | H : _ ∧ _ |- _ =>
            let H1 := fresh in let H2 := fresh in destruct H as [H1 H2]
        | H : _ ∨ _ |- _ => let H' := fresh in destruct H as [H'|H']
        end;
      simplify_eq;
      try (rewrite Hc in *; simpl in *; done);
      try (by eexists);
      right; exists el; by rewrite Hc.
  - split.
    + split; [intros [log [=]] | intros (el & [=] & _)].
    + split; [intros _; by left | intros _; by eexists].
  - split.
    + split; [intros [log [=]] | intros (el & [=] & _)].
    + split; [intros [log [=]] | intros [[=]|(el & [=] & _)]].
Qed.

Lemma typed_chars_app (l1 l2 : list Event) :
  typed_chars (l1 ++ l2) = typed_chars l1 ++ typed_chars l2.
Proof. apply omap_app. Qed.

Lemma type_chars_typed (element : Element) (hesitate : nat → bool)
    (min_delay max_delay : Z) (text : str) (i : nat) (log : list Event)
    (r : Res unit) :
  StealthUtils.type_chars element hesitate min_delay max_delay i text
    = (log, r) →
  typed_chars log `prefix_of` text
  ∧ (r = Ok tt → typed_chars log = text).
Proof.
  revert i log r. induction text as [|c text IH]; intros i log r; simpl.
  - intros [= <- <-]. split; [by exists []|reflexivity].
  - cbn [mbind Run_bind emit call].
    destruct (type_char element c) as [[]|e].
    + destruct (StealthUtils.type_chars element hesitate min_delay max_delay
                  (S i) text) as [log' r'] eqn:Hrest.
      destruct (IH _ _ _ Hrest) as [Hprefix Hall].
      destruct (hesitate i); cbn; intros [= <- <-].
      * split.
        -- change (typed_chars (EvTypeChar c min_delay max_delay
                                  :: EvRandomDelay 80 250 :: log'))
             with (c :: typed_chars log').
           by apply prefix_cons.
        -- intros Hr.
           change (typed_chars (EvTypeChar c min_delay max_delay
                                  :: EvRandomDelay 80 250 :: log'))
             with (c :: typed_chars log').
           by rewrite Hall.
      * split.
        -- change (typed_chars (EvTypeChar c min_delay max_delay :: log'))
             with (c :: typed_chars log').
           by apply prefix_cons.
        -- intros Hr.
           change (typed_chars (EvTypeChar c min_delay max_delay :: log'))
             with (c :: typed_chars log').
           by rewrite Hall.
    + cbn. intros [= <- <-]. split; [|discriminate].
      by exists text.
Qed.

Lemma human_type_typed (page : Page) (hesitate : nat → bool)
    (selector : string) (text : str) (wpm_min wpm_max : Z)
    (log : list Event) (r : Res unit) :
  StealthUtils.human_type page hesitate selector text wpm_min wpm_max
    = (log, r) →
  typed_chars log `prefix_of` text
  ∧ (r = Ok tt →
     typed_chars log = text
     ∨ (StealthUtils._resolve_visible_element page selector = Ok None
        ∧ log = [EvPrint (MsgTypingElementNotFound selector)])).
Proof.
  unfold StealthUtils.human_type.
  destruct (StealthUtils._resolve_visible_element page selector)
    as [[el|]|e]; cbn [mbind Run_bind call emit].
  - destruct (StealthUtils.type_chars el hesitate (60000 / (wpm_max * 5))
                (60000 / (wpm_min * 5)) 0 text) as [log' r'] eqn:Htype.
    destruct (type_chars_typed _ _ _ _ _ _ _ _ Htype) as [Hprefix Hall].
    destruct (click el) as [[]|e]; cbn; intros [= <- <-];
      (split; [exact Hprefix | intros Hr; left; by apply Hall]).
  - cbn. intros [= <- <-]. split; [by exists text|]. intros _. by right.
  - intros [= <- <-]. split; [by exists text | discriminate].
Qed.

(** X6: [human_type] types the characters of the text in order and
    nothing else: what it has typed is always an initial segment of the
    text, and when it returns normally it has typed the whole text, or
    the element was not resolved and it only printed its warning. A
    failing focus click does not stop the typing. *)
Theorem human_type_types_the_text (page : Page) (hesitate : nat → bool)
    (selector : string) (text : str) (wpm_min wpm_max : Z)
    (log : list Event) (r : Res unit) :
  StealthUtils.human_type page hesitate selector text wpm_min wpm_max
    = (log, r) →
  typed_chars log `prefix_of` text
  ∧ (r = Ok tt →
     typed_chars log = text
     ∨ (StealthUtils._resolve_visible_element page selector = Ok None
        ∧ log = [EvPrint (MsgTypingElementNotFound selector)])).
Proof.
  unfold StealthUtils.human_type.
  destruct (StealthUtils._resolve_visible_element page selector)
    as [[el|]|e]; cbn [mbind Run_bind call emit].
  - destruct (StealthUtils.type_chars el hesitate (60000 / (wpm_max * 5))
                (60000 / (wpm_min * 5)) 0 text) as [log' r'] eqn:Htype.
    destruct (type_chars_typed _ _ _ _ _ _ _ _ Htype) as [Hprefix Hall].
    destruct (click el) as [[]|e]; cbn; intros [= <- <-];
      (split; [exact Hprefix | intros Hr; left; by apply Hall]).
  - cbn. intros [= <- <-]. split; [by exists text|]. intros _. by right.
  - intros [= <- <-]. split; [by exists text | discriminate].
Qed.

Lemma human_type_types_the_text_witness :
  typed_chars
    (fst (StealthUtils.human_type
            (Examples.board_page Examples.board_url [] false true)
            (λ i, Nat.even i) "textarea[placeholder*='Ask']"
            (lit "Why?") 220 320))
    `prefix_of` lit "Why?"
  ∧ (Ok tt = Ok tt →
     typed_chars
       (fst (StealthUtils.human_type
               (Examples.board_page Examples.board_url [] false true)
               (λ i, Nat.even i) "textarea[placeholder*='Ask']"
               (lit "Why?") 220 320))
     = lit "Why?"
     ∨ (StealthUtils._resolve_visible_element
          (Examples.board_page Examples.board_url [] false true)
          "textarea[placeholder*='Ask']" = Ok None
        ∧ fst (StealthUtils.human_type
                 (Examples.board_page Examples.board_url [] false true)
                 (λ i, Nat.even i) "textarea[placeholder*='Ask']"
                 (lit "Why?") 220 320)
          = [EvPrint (MsgTypingElementNotFound
                        "textarea[placeholder*='Ask']")])).
Proof.
  apply (human_type_types_the_text
           (Examples.board_page Examples.board_url [] false true)
           (λ i, Nat.even i) "textarea[placeholder*='Ask']"
           (lit "Why?") 220 320).
  vm_compute. reflexivity.
Defined.

(** The default typing rate gives delays of 37 to 54 ms a character;
    every second character is followed by a hesitation here. *)
Example human_type_run :
  StealthUtils.human_type
    (Examples.board_page Examples.board_url [] false true)
    (λ i, Nat.even i) "textarea[placeholder*='Ask']" (lit "Hi") 220 320
  = ([ EvClick; EvTypeChar 72 37 54; EvRandomDelay 80 250;
       EvTypeChar 105 37 54 ], Ok tt).
Proof. vm_compute. reflexivity. Qed.

(** X7: the send-button loop stops at the first selector whose click
    returns true: the selectors after it are not tried, whatever they
    would do, and the events of the loop are those of the clicks up to
    it. When no click returns true every selector is tried, and the loop
    still returns normally. *)
Theorem send_loop_stops_at_first_success (page : Page)
    (skipped : list string) :
  (∀ s, s ∈ skipped →
        snd (StealthUtils.realistic_click page s) ≠ Ok true) →
  (∀ sel rest,
     snd (StealthUtils.realistic_click page sel) = Ok true →
     click_send_from (skipped ++ sel :: rest) page
     = (concat (map (λ s, fst (StealthUtils.realistic_click page s))
                  (skipped ++ [sel])),
        Ok tt))
  ∧ click_send_from skipped page
    = (concat (map (λ s, fst (StealthUtils.realistic_click page s)) skipped),
       Ok tt).
Proof.
  induction skipped as [|s0 skipped IH]; intros Hfail.
  - split; [|reflexivity]. intros sel rest Hsel. simpl.
    destruct (StealthUtils.realistic_click page sel) as [log r].
    simpl in Hsel. subst r. cbn. by rewrite !app_nil_r.
  - assert (∀ s, s ∈ skipped →
              snd (StealthUtils.realistic_click page s) ≠ Ok true) as Hrest
      by (intros s Hs; apply Hfail; by apply list_elem_of_further).
    destruct (IH Hrest) as [IHsel IHall].
    pose proof (Hfail s0 (list_elem_of_here _ _)) as Hs0.
    split.
    + intros sel rest Hsel. simpl.
      rewrite (IHsel sel rest Hsel).
      destruct (StealthUtils.realistic_click page s0) as [log [[|]|e]];
        simpl in Hs0; [done| |]; cbn; by rewrite ?app_nil_r.
    + simpl. rewrite IHall.
      destruct (StealthUtils.realistic_click page s0) as [log [[|]|e]];
        simpl in Hs0; [done| |]; cbn; by rewrite ?app_nil_r.
Qed.

Lemma send_loop_stops_at_first_success_witness :
  (∀ sel rest,
     snd (StealthUtils.realistic_click Examples.page_with_send_button sel)
       = Ok true →
     click_send_from ([ "button[aria-label*='Send']" ] ++ sel :: rest)
       Examples.page_with_send_button
     = (concat
          (map (λ s, fst (StealthUtils.realistic_click
                            Examples.page_with_send_button s))
             ([ "button[aria-label*='Send']" ] ++ [sel])),
        Ok tt))
  ∧ click_send_from [ "button[aria-label*='Send']" ]
      Examples.page_with_send_button
    = (concat
         (map (λ s, fst (StealthUtils.realistic_click
                           Examples.page_with_send_button s))
            [ "button[aria-label*='Send']" ]),
       Ok tt).
Proof.
  apply (send_loop_stops_at_first_success Examples.page_with_send_button
           [ "button[aria-label*='Send']" ]).
  intros s Hs. apply list_elem_of_singleton in Hs as ->.
  vm_compute. discriminate.
Defined.

(** The second configured selector is clicked; the third is not tried. *)
Example send_loop_run :
  click_send_from Config.SEND_BUTTON_SELECTORS Examples.page_with_send_button
  = ([ EvMouseMove (320 # 2) (80 # 2); EvRandomDelay 80 220; EvClick;
       EvRandomDelay 80 220 ], Ok tt).
Proof. vm_compute. reflexivity. Qed.

(** X8: the idle pointer movement never raises. It moves the pointer to
    the start point and to two waypoints, with a pause after each
    waypoint; a move that fails ends the routine silently, so what it did
    is an initial part of that script, and the whole script when no move
    fails. *)
Theorem random_mouse_movement_is_best_effort (page : Page) (start : Z * Z)
    (waypoint : nat → Z * Z) :
  ∃ log,
    StealthUtils.random_mouse_movement page start waypoint = (log, Ok tt)
    ∧ log `prefix_of`
        [ EvMouseMove (inject_Z (fst start)) (inject_Z (snd start));
          EvMouseMove (inject_Z (fst (waypoint 0%nat)))
            (inject_Z (snd (waypoint 0%nat)));
          EvRandomDelay 50 180;
          EvMouseMove (inject_Z (fst (waypoint 1%nat)))
            (inject_Z (snd (waypoint 1%nat)));
          EvRandomDelay 50 180 ]
    ∧ ((∀ x y, mouse_move page x y = Ok tt) →
       log = [ EvMouseMove (inject_Z (fst start)) (inject_Z (snd start));
               EvMouseMove (inject_Z (fst (waypoint 0%nat)))
                 (inject_Z (snd (waypoint 0%nat)));
               EvRandomDelay 50 180;
               EvMouseMove (inject_Z (fst (waypoint 1%nat)))
                 (inject_Z (snd (waypoint 1%nat)));
               EvRandomDelay 50 180 ]).
Proof.
  unfold StealthUtils.random_mouse_movement. cbn.
  destruct (mouse_move page (inject_Z (fst start)) (inject_Z (snd start)))
    as [[]|e] eqn:H0; cbn.
  - destruct (mouse_move page (inject_Z (fst (waypoint 0%nat)))
                (inject_Z (snd (waypoint 0%nat)))) as [[]|e] eqn:H1; cbn.
    + destruct (mouse_move page (inject_Z (fst (waypoint 1%nat)))
                  (inject_Z (snd (waypoint 1%nat)))) as [[]|e] eqn:H2; cbn.
      * eexists. split; [reflexivity|]. split; [by exists []|done].
      * eexists. split; [reflexivity|]. split; [by eexists|].
        intros H. rewrite H in H2. discriminate.
    + eexists. split; [reflexivity|]. split; [by eexists|].
      intros H. rewrite H in H1. discriminate.
  - eexists. split; [reflexivity|]. split; [by eexists|].
    intros H. rewrite H in H0. discriminate.
Qed.

Example frozen_pointer_is_tolerated :
  StealthUtils.random_mouse_movement Examples.frozen_pointer_page
    (120, 340)%Z (λ i, (200 + Z.of_nat i, 300)%Z)
  = ([EvMouseMove (120 # 1) (340 # 1)], Ok tt).
Proof. vm_compute. reflexivity. Qed.

(** ** The completion detector, further *)

Lemma occurrences_bound_length (S B : list str) :
  (∀ u, occurrences u S ≤ occurrences u B) → length S ≤ length B.
Proof.
  revert B. induction S as [|x S IH]; intros B H; simpl; [lia|].
  assert (x ∈ B) as Hin.
  { apply occurrences_pos_elem. specialize (H x). simpl in H.
    rewrite decide_True in H by reflexivity. lia. }
  apply list_elem_of_split in Hin as (B1 & B2 & ->).
  assert (length S ≤ length (B1 ++ B2)) as Hlen.
  { apply IH. intros u. specialize (H u).
    rewrite !occurrences_app in *. simpl in H. lia. }
  rewrite !length_app in *. simpl. lia.
Qed.

(** X9: the in-place fallback never reports a text that is new by count:
    when the candidate comes from the fallback, it is the last text of
    the snapshot, it already occurred in the baseline at least as often
    as in the snapshot, and the snapshot as a whole holds no text more
    often than the baseline did, so it is not longer than the baseline. *)
Theorem fallback_candidate_was_in_baseline (B S : list str) (t : str) :
  primary_candidate (capture_baseline B) S = None →
  find_candidate (capture_baseline B) S = Some t →
  last S = Some t
  ∧ t ∈ B
  ∧ 1 ≤ occurrences t S
  ∧ occurrences t S ≤ occurrences t B
  ∧ (∀ u, occurrences u S ≤ occurrences u B)
  ∧ length S ≤ length B.
Proof.
  intros Hprimary Hfind.
  apply find_candidate_Some in Hfind as [Hinc|(_ & pl & _ & Hlast & _ & _)].
  - exfalso. rewrite primary_candidate_None in Hprimary.
    assert (t ∈ S) as Hin by (apply occurrences_pos_elem; lia).
    specialize (Hprimary t Hin). lia.
  - pose proof (occurrences_last S t Hlast) as Hpos.
    assert (∀ u, occurrences u S ≤ occurrences u B) as Hall.
    { intros u. destruct (decide (u ∈ S)) as [Hin|Hnin].
      - by apply primary_candidate_None.
      - destruct (occurrences u S) eqn:Hocc; [lia|].
        exfalso. apply Hnin, occurrences_pos_elem. lia. }
    split; [exact Hlast|].
    split; [apply occurrences_pos_elem; specialize (Hall t); lia|].
    split; [lia|]. split; [apply Hall|].
    split; [exact Hall | by apply occurrences_bound_length].
Qed.

Lemma fallback_candidate_was_in_baseline_witness :
  last [Examples.working; Examples.hi] = Some Examples.hi
  ∧ Examples.hi ∈ [Examples.hi; Examples.working]
  ∧ 1 ≤ occurrences Examples.hi [Examples.working; Examples.hi]
  ∧ occurrences Examples.hi [Examples.working; Examples.hi]
    ≤ occurrences Examples.hi [Examples.hi; Examples.working]
  ∧ (∀ u, occurrences u [Examples.working; Examples.hi]
          ≤ occurrences u [Examples.hi; Examples.working])
  ∧ length [Examples.working; Examples.hi]
    ≤ length [Examples.hi; Examples.working].
Proof.
  apply (fallback_candidate_was_in_baseline
           [Examples.hi; Examples.working] [Examples.working; Examples.hi]
           Examples.hi).
  - vm_compute. reflexivity.
  - vm_compute. reflexivity.
Defined.

(** X10: the poll loop keeps its two variables within bounds: while it
    goes on polling the counter is at most 2, it is 0 exactly as long as
    no candidate was recorded, and the recorded text is never empty. The
    loop returns only from a counter of 2, that is on the third
    confirmation. *)
Theorem loop_variables_stay_in_bounds :
  loop_invariant initial_state
  ∧ (∀ st candidate st',
       loop_invariant st →
       stability_step st candidate = Continue st' →
       loop_invariant st')
  ∧ (∀ st candidate answer,
       loop_invariant st →
       stability_step st candidate = Return answer →
       stable_count st = 2).
Proof.
  split; [|split].
  - unfold loop_invariant, initial_state. simpl.
    split; [lia|]. split; [done|]. intros t [=].
  - intros st candidate st' (Hle & Hnone & Hne).
    unfold stability_step.
    destruct candidate as [c|]; [|by intros [= <-]].
    destruct (truthy c) eqn:Hc; [|by intros [= <-]].
    assert (c ≠ []) as Hcne by (by destruct c).
    case_bool_decide as Heq.
    + destruct (Nat.leb_spec 3 (S (stable_count st))); [discriminate|].
      intros [= <-]. unfold loop_invariant. simpl.
      split; [lia|]. split; [|exact Hne].
      rewrite <- Heq. split; [discriminate | lia].
    + intros [= <-]. unfold loop_invariant. simpl.
      split; [lia|]. split; [split; [discriminate | lia]|].
      by intros t [= <-].
  - intros st candidate answer (Hle & _ & _) Hstep.
    apply stability_step_Return in Hstep as (t & _ & _ & _ & Hge & _). lia.
Qed.

Lemma confirmation_at_Some (b : Baseline) (p : Poll) (t : str) :
  confirmation_at b p = Some t ↔ candidate_at b p = Some t ∧ truthy t = true.
Proof.
  unfold confirmation_at. destruct (candidate_at b p) as [c|].
  - destruct (truthy c) eqn:Hc; split.
    + by intros [= <-].
    + by intros [[= <-] _].
    + discriminate.
    + intros [[= <-] Ht]. congruence.
  - split; [discriminate | by intros [[=] _]].
Qed.

(** X11: three polls in a row that are read before the deadline and
    produce the same candidate always end the loop with that text, from
    whatever the loop had recorded before them. *)
Theorem three_confirmations_complete (b : Baseline) (deadline : Z)
    (seen : list Poll) (p1 p2 p3 : Poll) (later : list Poll)
    (st : LoopState) (log : list Event) (t : str) :
  poll_loop b deadline seen st = (log, Ok StillPolling) →
  Forall (λ p, (poll_now p < deadline)%Z ∧ confirmation_at b p = Some t)
    [p1; p2; p3] →
  ∃ log',
    poll_loop b deadline (seen ++ p1 :: p2 :: p3 :: later) st
    = (log', Ok (Returned (Some (t ++ FOLLOW_UP_REMINDER)))).
Proof.
  intros Hseen Hpolls.
  apply Forall_cons in Hpolls as [[Hn1 Hc1] Hpolls].
  apply Forall_cons in Hpolls as [[Hn2 Hc2] Hpolls].
  apply Forall_cons in Hpolls as [[Hn3 Hc3] _].
  apply confirmation_at_Some in Hc1 as [Hc1 Ht].
  apply confirmation_at_Some in Hc2 as [Hc2 _].
  apply confirmation_at_Some in Hc3 as [Hc3 _].
  destruct (poll_loop_app b deadline seen st log Hseen) as [st0 Happ].
  apply Z.ltb_lt in Hn1, Hn2, Hn3.
  assert (∀ st1 : LoopState,
            last_text st1 = Some t → 1 ≤ stable_count st1 →
            ∃ log1,
              poll_loop b deadline (p2 :: p3 :: later) st1
              = (log1, Ok (Returned (Some (t ++ FOLLOW_UP_REMINDER)))))
    as Hnext.
  { intros st1 Hlast Hcount.
    rewrite poll_loop_cons, Hn2, Hc2. unfold stability_step at 1.
    rewrite Ht, Hlast, bool_decide_eq_true_2 by done.
    destruct (Nat.leb_spec 3 (S (stable_count st1))); [by eexists|].
    rewrite poll_loop_cons, Hn3, Hc3. unfold stability_step at 1.
    rewrite Ht. cbn [last_text stable_count].
    rewrite bool_decide_eq_true_2 by done.
    destruct (Nat.leb_spec 3 (S (S (stable_count st1)))); [|lia].
    by eexists. }
  assert (∃ log1,
            poll_loop b deadline (p1 :: p2 :: p3 :: later) st0
            = (log1, Ok (Returned (Some (t ++ FOLLOW_UP_REMINDER)))))
    as [log1 Hrun].
  { rewrite poll_loop_cons, Hn1, Hc1. unfold stability_step at 1.
    rewrite Ht. case_bool_decide as Heq.
    - destruct (Nat.leb_spec 3 (S (stable_count st0))); [by eexists|].
      destruct (Hnext {| stable_count := S (stable_count st0);
                         last_text := last_text st0 |})
        as [log1 ->]; [done | simpl; lia |].
      by eexists.
    - destruct (Hnext {| stable_count := 1; last_text := Some t |})
        as [log1 ->]; [done | simpl; lia |].
      by eexists. }
  rewrite Happ, Hrun. by eexists.
Qed.

Lemma three_confirmations_complete_witness :
  ∃ log',
    poll_loop (capture_baseline [Examples.hi]) 120000
      ([ Examples.showing 800 [Examples.hi; Examples.working] true ]
       ++ Examples.showing 1600 [Examples.hi; Examples.done_text] false
       :: Examples.showing 2400 [Examples.hi; Examples.done_text] false
       :: Examples.showing 3200 [Examples.hi; Examples.done_text] true
       :: [])
      initial_state
    = (log', Ok (Returned (Some (Examples.done_text ++ FOLLOW_UP_REMINDER)))).
Proof.
  apply (three_confirmations_complete (capture_baseline [Examples.hi]) 120000
           [ Examples.showing 800 [Examples.hi; Examples.working] true ]
           (Examples.showing 1600 [Examples.hi; Examples.done_text] false)
           (Examples.showing 2400 [Examples.hi; Examples.done_text] false)
           (Examples.showing 3200 [Examples.hi; Examples.done_text] true)
           [] initial_state [EvSleep 800] Examples.done_text).
  - vm_compute. reflexivity.
  - repeat constructor; vm_compute; reflexivity.
Defined.

(** ** The pace of the poll loop *)

Lemma poll_loop_returned_shape (b : Baseline) (deadline : Z)
    (trace : list Poll) (st : LoopState) (log : list Event)
    (answer : option str) :
  poll_loop b deadline trace st = (log, Ok (Returned answer)) →
  ∃ earlier p later,
    trace = earlier ++ p :: later
    ∧ Forall (λ q, (poll_now q < deadline)%Z) earlier
    ∧ log = replicate (length earlier) (EvSleep 800)
            ++ [EvPrint (match answer with
                         | Some _ => MsgGotAnswer
                         | None => MsgTimeout
                         end)]
    ∧ (answer = None ↔ (deadline ≤ poll_now p)%Z).
Proof.
  revert st log. induction trace as [|p rest IH]; intros st log.
  - discriminate.
  - rewrite poll_loop_cons.
    destruct (Z.ltb_spec (poll_now p) deadline) as [Hlt|Hge].
    + destruct (stability_step st (candidate_at b p)) as [st'|a] eqn:Hstep.
      * destruct (poll_loop b deadline rest st') as [log' r] eqn:Hrest.
        intros [= <- ->].
        destruct (IH _ _ Hrest) as (earlier & q & later & -> & Hbefore & -> & Hq).
        exists (p :: earlier), q, later. split; [reflexivity|].
        split; [by constructor|]. split; [reflexivity | exact Hq].
      * intros [= <- <-]. exists [], p, rest. split; [reflexivity|].
        split; [constructor|]. split; [reflexivity|].
        split; [discriminate | lia].
    + intros [= <- <-]. exists [], p, rest. split; [reflexivity|].
      split; [constructor|]. split; [reflexivity|]. by split.
Qed.

(** X12: when the poll loop returns at some poll it has slept 0.8 s
    once for each poll before that one, whether the thinking indicator
    was visible or not, and has printed one closing message: the answer
    message with an answer, the timeout message without. It returns
    without an answer exactly when the clock reading of that poll is not
    before the deadline. *)
Theorem poll_loop_sleeps_once_per_poll (b : Baseline) (deadline : Z)
    (trace : list Poll) (st : LoopState) (log : list Event)
    (answer : option str) :
  poll_loop b deadline trace st = (log, Ok (Returned answer)) →
  ∃ earlier p later,
    trace = earlier ++ p :: later
    ∧ Forall (λ q, (poll_now q < deadline)%Z) earlier
    ∧ log = replicate (length earlier) (EvSleep 800)
            ++ [EvPrint (match answer with
                         | Some _ => MsgGotAnswer
                         | None => MsgTimeout
                         end)]
    ∧ (answer = None ↔ (deadline ≤ poll_now p)%Z).
Proof.
  revert st log. induction trace as [|p rest IH]; intros st log.
  - discriminate.
  - rewrite poll_loop_cons.
    destruct (Z.ltb_spec (poll_now p) deadline) as [Hlt|Hge].
    + destruct (stability_step st (candidate_at b p)) as [st'|a] eqn:Hstep.
      * destruct (poll_loop b deadline rest st') as [log' r] eqn:Hrest.
        intros [= <- ->].
        destruct (IH _ _ Hrest) as (earlier & q & later & -> & Hbefore & -> & Hq).
        exists (p :: earlier), q, later. split; [reflexivity|].
        split; [by constructor|]. split; [reflexivity | exact Hq].
      * intros [= <- <-]. exists [], p, rest. split; [reflexivity|].
        split; [constructor|]. split; [reflexivity|].
        split; [discriminate | lia].
    + intros [= <- <-]. exists [], p, rest. split; [reflexivity|].
      split; [constructor|]. split; [reflexivity|]. by split.
Qed.

Lemma poll_loop_sleeps_once_per_poll_witness :
  ∃ earlier p later,
    Examples.trace_settling = earlier ++ p :: later
    ∧ Forall (λ q, (poll_now q < 120000)%Z) earlier
    ∧ [EvSleep 800; EvSleep 800; EvSleep 800; EvPrint MsgGotAnswer]
      = replicate (length earlier) (EvSleep 800)
        ++ [EvPrint (match Some (Examples.done_text ++ FOLLOW_UP_REMINDER)
                     with
                     | Some _ => MsgGotAnswer
                     | None => MsgTimeout
                     end)]
    ∧ (Some (Examples.done_text ++ FOLLOW_UP_REMINDER) = None ↔
       (120000 ≤ poll_now p)%Z).
Proof.
  apply (poll_loop_sleeps_once_per_poll (capture_baseline [Examples.hi])
           120000 Examples.trace_settling initial_state
           [EvSleep 800; EvSleep 800; EvSleep 800; EvPrint MsgGotAnswer]
           (Some (Examples.done_text ++ FOLLOW_UP_REMINDER))).
  vm_compute. reflexivity.
Defined.

(** X13: if the clock advances by at least the 0.8 s slept between two
    polls, the loop returns within 151 polls of a trace, after at most
    150 sleeps: with a deadline 120 s after the first reading the poll
    loop cannot go on for longer. *)
Theorem poll_loop_returns_within_150_sleeps (b : Baseline) (start : Z)
    (trace : list Poll) (st : LoopState) :
  (∀ i p, trace !! i = Some p → (start + 800 * Z.of_nat i ≤ poll_now p)%Z) →
  150 < length trace →
  ∃ log answer n,
    poll_loop b (start + 120000) trace st = (log, Ok (Returned answer))
    ∧ n ≤ 150
    ∧ log = replicate n (EvSleep 800)
            ++ [EvPrint (match answer with
                         | Some _ => MsgGotAnswer
                         | None => MsgTimeout
                         end)].
Proof.
  intros Hclock Hlen.
  assert (Exists (λ p, (start + 120000 ≤ poll_now p)%Z) trace) as Hlate.
  { destruct (lookup_lt_is_Some_2 trace 150 Hlen) as [p Hp].
    apply Exists_exists. exists p. split.
    - rewrite list_elem_of_lookup. by exists 150.
    - specialize (Hclock 150 p Hp). lia. }
  destruct (poll_loop_returns_once_late b _ trace st Hlate)
    as (log & answer & Hrun).
  exists log, answer.
  destruct (poll_loop_returned_shape _ _ _ _ _ _ Hrun)
    as (earlier & p & later & Htrace & Hbefore & Hlog & _).
  exists (length earlier). split; [exact Hrun|]. split; [|exact Hlog].
  destruct (length earlier) as [|n] eqn:Hn; [lia|].
  assert (n < length earlier) as Hlt by lia.
  destruct (lookup_lt_is_Some_2 earlier n Hlt) as [q Hq].
  assert (trace !! n = Some q) as Hq'
    by (rewrite Htrace, lookup_app_l by lia; exact Hq).
  specialize (Hclock n q Hq').
  rewrite Forall_lookup in Hbefore. specialize (Hbefore n q Hq). lia.
Qed.

Lemma trace_idle_clock (i : nat) (p : Poll) :
  Examples.trace_idle !! i = Some p →
  (0 + 800 * Z.of_nat i ≤ poll_now p)%Z.
Proof.
  unfold Examples.trace_idle. change map with (@fmap list _).
  rewrite list_lookup_fmap. intros H.
  destruct (seq 0 151 !! i) as [j|] eqn:Hj; [|discriminate].
  apply lookup_seq in Hj as [-> _]. simpl in H. injection H as <-.
  simpl. lia.
Qed.

Lemma poll_loop_returns_within_150_sleeps_witness :
  ∃ log answer n,
    poll_loop (capture_baseline [Examples.hi]) (0 + 120000)
      Examples.trace_idle initial_state
    = (log, Ok (Returned answer))
    ∧ n ≤ 150
    ∧ log = replicate n (EvSleep 800)
            ++ [EvPrint (match answer with
                         | Some _ => MsgGotAnswer
                         | None => MsgTimeout
                         end)].
Proof.
  apply (poll_loop_returns_within_150_sleeps (capture_baseline [Examples.hi])
           0 Examples.trace_idle initial_state).
  - apply trace_idle_clock.
  - vm_compute. lia.
Defined.

(** An idle page is polled 150 times before the timeout. *)
Example idle_page_times_out_after_150_sleeps :
  poll_loop (capture_baseline [Examples.hi]) 120000 Examples.trace_idle
    initial_state
  = (replicate 150 (EvSleep 800) ++ [EvPrint MsgTimeout], Ok (Returned None)).
Proof. vm_compute. reflexivity. Qed.

(** ** The session as a whole *)

Lemma finally_events_quiet (w : World) :
  Forall (λ ev, is_input_event ev = false) (finally_events w)
  ∧ Forall no_typing_or_key (finally_events w)
  ∧ ∀ m, ¬ In (EvPrint m) (finally_events w).
Proof.
  unfold finally_events.
  destruct (playwright_start w), (launch_persistent_context w);
    (split; [by repeat constructor|]; split; [by repeat constructor|]);
    intros m H; simpl in H; intuition discriminate.
Qed.

(** The stages of the body of [ask_youmind]: it ends before any input
    action, or it found the chat input and goes on with the click, the
    typing, the key press and the poll loop. *)
Lemma ask_session_cases (w : World) (q u : str) :
  (∃ log0 r,
     ask_session w q u = (log0, r)
     ∧ Forall (λ ev, is_input_event ev = false) log0
     ∧ (r = Ok (Returned None) ∨ ∃ e, r = Raise e))
  ∨ (∃ a s,
       playwright_start w = Ok tt
       ∧ launch_persistent_context w = Ok tt
       ∧ new_page w = Ok tt
       ∧ goto w = Ok tt
       ∧ redirected_to_sign_in (loaded_page w) = false
       ∧ _find_input_selector (loaded_page w) = Ok (Some (String a s))
       ∧ ask_session w q u
         = let before :=
             [ EvPrint MsgOpeningBoard; EvGoto u;
               EvPrint (MsgFoundChatInput (String a s)) ] in
           match StealthUtils.realistic_click (loaded_page w) (String a s)
           with
           | (logc, Raise e) => (before ++ logc, Raise e)
           | (logc, Ok _) =>
               match StealthUtils.human_type (loaded_page w) (hesitations w)
                       (String a s) q 220 320 with
               | (logt, Raise e) => (before ++ logc ++ logt, Raise e)
               | (logt, Ok _) =>
                   match keyboard_press (loaded_page w) "Enter" with
                   | Raise e =>
                       (before ++ logc ++ logt
                        ++ [EvPrint MsgSubmitting; EvKeyPress "Enter"],
                        Raise e)
                   | Ok _ =>
                       (before ++ logc ++ logt
                        ++ [EvPrint MsgSubmitting; EvKeyPress "Enter";
                            EvSleep 600]
                        ++ fst (click_send_from Config.SEND_BUTTON_SELECTORS
                                  (submitted_page w))
                        ++ [EvPrint MsgWaiting]
                        ++ fst (poll_loop
                                  (capture_baseline
                                     (snapshot_of (loaded_page w)))
                                  (time_at_submit w + 120000) (polls w)
                                  initial_state),
                        snd (poll_loop
                               (capture_baseline
                                  (snapshot_of (loaded_page w)))
                               (time_at_submit w + 120000) (polls w)
                               initial_state))
                   end
               end
           end).
Proof.
  unfold ask_session.
  destruct (playwright_start w) as [[]|?]; session_step;
    [|left; eexists _, _; split; [reflexivity|];
      split; [by repeat constructor | eauto]].
  destruct (launch_persistent_context w) as [[]|?]; session_step;
    [|left; eexists _, _; split; [reflexivity|];
      split; [by repeat constructor | eauto]].
  destruct (new_page w) as [[]|?]; session_step;
    [|left; eexists _, _; split; [reflexivity|];
      split; [by repeat constructor | eauto]].
  destruct (goto w) as [[]|?]; session_step;
    [|left; eexists _, _; split; [reflexivity|];
      split; [by repeat constructor | eauto]].
  destruct (redirected_to_sign_in (loaded_page w)) eqn:Hredirect;
    session_step;
    [left; eexists _, _; split; [reflexivity|];
     split; [by repeat constructor | eauto]|].
  rewrite _collect_responses_snapshot. session_step.
  destruct (_find_input_selector (loaded_page w)) as [[[|a s]|]|?] eqn:Hin;
    session_step;
    [ left; eexists _, _; split; [reflexivity|];
      split; [by repeat constructor | eauto]
    |
    | left; eexists _, _; split; [reflexivity|];
      split; [by repeat constructor | eauto]
    | left; eexists _, _; split; [reflexivity|];
      split; [by repeat constructor | eauto] ].
  right. exists a, s. do 6 (split; [reflexivity|]). cbn zeta.
  destruct (StealthUtils.realistic_click (loaded_page w) (String a s))
    as [logc [clicked|?]]; session_step; [|reflexivity].
  destruct (StealthUtils.human_type (loaded_page w) (hesitations w)
              (String a s) q 220 320) as [logt [[]|?]]; session_step;
    [|by rewrite <- ?app_assoc].
  destruct (keyboard_press (loaded_page w) "Enter") as [[]|?]; session_step;
    [|by rewrite <- ?app_assoc].
  destruct (click_send_from_total (submitted_page w)
              Config.SEND_BUTTON_SELECTORS) as [log3 ->].
  session_step.
  destruct (poll_loop _ _ (polls w) initial_state) as [log r].
  cbn [fst snd]. by rewrite <- ?app_assoc.
Qed.

Lemma no_input_event_contradiction (log : list Event) :
  Forall (λ ev, is_input_event ev = false) log →
  Exists (λ ev, is_input_event ev = true) log →
  False.
Proof.
  intros Hall Hex. apply Exists_exists in Hex as (ev & Hin & Hev).
  rewrite Forall_forall in Hall. specialize (Hall ev Hin). congruence.
Qed.

(** X14: [ask_youmind] touches the page with the pointer or the keyboard
    only after every check has passed: if its run holds a pointer move, a
    click, a typed character or a key press, then the session was
    authenticated, Playwright, the context, the page and the navigation
    all succeeded, the URL test did not report a redirect and a chat
    input selector was found. *)
Theorem input_actions_only_after_checks (w : World) (q u : str) (h : bool) :
  Exists (λ ev, is_input_event ev = true) (fst (ask_youmind w q u h)) →
  navigated w
  ∧ redirected_to_sign_in (loaded_page w) = false
  ∧ ∃ sel, _find_input_selector (loaded_page w) = Ok (Some sel)
           ∧ sel ≠ EmptyString.
Proof.
  unfold ask_youmind.
  destruct (is_authenticated w) eqn:Hauth.
  - destruct (ask_session_cases w q u)
      as [(log0 & r & -> & Hquiet & Hr)|(a & s & H1 & H2 & H3 & H4 & H5 & H6 & _)].
    + intros Hex. exfalso.
      destruct (finally_events_quiet w) as [Hfin _].
      destruct Hr as [->|[e ->]]; cbn [fst] in Hex;
        apply (no_input_event_contradiction _) in Hex; try done;
        repeat (apply Forall_app; split); try done; by repeat constructor.
    + intros _. split; [by repeat split|]. split; [exact H5|].
      exists (String a s). by split.
  - intros Hex. exfalso. simpl in Hex.
    apply (no_input_event_contradiction _) in Hex; [done|].
    by repeat constructor.
Qed.

Lemma input_actions_only_after_checks_witness :
  navigated
    (Examples.session Examples.board_url [Examples.hi] true
       Examples.trace_unsettled)
  ∧ redirected_to_sign_in
      (loaded_page
         (Examples.session Examples.board_url [Examples.hi] true
            Examples.trace_unsettled)) = false
  ∧ ∃ sel,
      _find_input_selector
        (loaded_page
           (Examples.session Examples.board_url [Examples.hi] true
              Examples.trace_unsettled)) = Ok (Some sel)
      ∧ sel ≠ EmptyString.
Proof.
  apply (input_actions_only_after_checks
           (Examples.session Examples.board_url [Examples.hi] true
              Examples.trace_unsettled)
           (lit "Why?") Examples.board_url true).
  vm_compute. apply Exists_cons_tl, Exists_cons_tl, Exists_cons_tl,
    Exists_cons_tl, Exists_cons_tl, Exists_cons_hd. reflexivity.
Defined.

Lemma poll_loop_answer_full (b : Baseline) (deadline : Z) (trace : list Poll)
    (st : LoopState) (log : list Event) (answer : str) :
  poll_loop b deadline trace st = (log, Ok (Returned (Some answer))) →
  ∃ earlier p later t,
    trace = earlier ++ p :: later
    ∧ Forall (λ q, (poll_now q < deadline)%Z) (earlier ++ [p])
    ∧ candidate_at b p = Some t
    ∧ t ≠ []
    ∧ answer = t ++ FOLLOW_UP_REMINDER.
Proof.
  revert st log. induction trace as [|p rest IH]; intros st log.
  - discriminate.
  - rewrite poll_loop_cons.
    destruct (Z.ltb_spec (poll_now p) deadline) as [Hlt|Hge]; [|discriminate].
    destruct (stability_step st (candidate_at b p)) as [st'|a] eqn:Hstep.
    + destruct (poll_loop b deadline rest st') as [log' r] eqn:Hrest.
      intros [= <- ->].
      destruct (IH _ _ Hrest)
        as (earlier & q & later & t & -> & Hbefore & Hc & Ht & ->).
      exists (p :: earlier), q, later, t. split; [reflexivity|].
      split; [by constructor|]. by repeat split.
    + intros [= <- <-].
      apply stability_step_Return in Hstep as (t & Hc & Ht & _ & _ & ->).
      exists [], p, rest, t. split; [reflexivity|].
      split; [by repeat constructor|]. split; [exact Hc|].
      split; [by destruct t | reflexivity].
Qed.

Lemma ask_youmind_answer (w : World) (q u : str) (h : bool)
    (answer : str) :
  snd (ask_youmind w q u h) = Returned (Some answer) →
  is_authenticated w = true
  ∧ redirected_to_sign_in (loaded_page w) = false
  ∧ (∃ sel, _find_input_selector (loaded_page w) = Ok (Some sel))
  ∧ In (EvKeyPress "Enter") (fst (ask_youmind w q u h))
  ∧ ∃ earlier p later t,
      polls w = earlier ++ p :: later
      ∧ Forall (λ q, (poll_now q < time_at_submit w + 120000)%Z)
          (earlier ++ [p])
      ∧ candidate_at (capture_baseline (snapshot_of (loaded_page w))) p
        = Some t
      ∧ t ≠ []
      ∧ answer = t ++ FOLLOW_UP_REMINDER.
Proof.
  unfold ask_youmind.
  destruct (is_authenticated w); [|discriminate].
  destruct (ask_session_cases w q u)
    as [(log0 & r & -> & _ & Hr)
       |(a & s & _ & _ & _ & _ & Hredirect & Hinput & ->)].
  { by destruct Hr as [->|[e ->]]. }
  cbn zeta.
  destruct (StealthUtils.realistic_click (loaded_page w) (String a s))
    as [logc [clicked|?]]; [|discriminate].
  destruct (StealthUtils.human_type (loaded_page w) (hesitations w)
              (String a s) q 220 320) as [logt [[]|?]]; [|discriminate].
  destruct (keyboard_press (loaded_page w) "Enter") as [[]|?];
    [|discriminate].
  destruct (poll_loop (capture_baseline (snapshot_of (loaded_page w)))
              (time_at_submit w + 120000) (polls w) initial_state)
    as [log [[result|]|e]] eqn:Hloop; cbn [fst snd]; try discriminate.
  intros [= ->].
  split; [reflexivity|]. split; [exact Hredirect|].
  split; [by eexists|]. split.
  - rewrite !in_app_iff. simpl. tauto.
  - by apply (poll_loop_answer_full _ _ _ initial_state log).
Qed.

(** X15: [ask_youmind] returns an answer only as the outcome of the poll
    loop: the session was authenticated and not redirected, a chat input
    was found and Enter was pressed, and the answer is the fixed reminder
    appended to a non-empty text that is the candidate of one of the
    polls, read before the deadline, against the baseline taken from the
    page before submission. *)
Theorem answer_comes_from_a_poll (w : World) (q u : str) (h : bool)
    (answer : str) :
  snd (ask_youmind w q u h) = Returned (Some answer) →
  is_authenticated w = true
  ∧ redirected_to_sign_in (loaded_page w) = false
  ∧ (∃ sel, _find_input_selector (loaded_page w) = Ok (Some sel))
  ∧ In (EvKeyPress "Enter") (fst (ask_youmind w q u h))
  ∧ ∃ earlier p later t,
      polls w = earlier ++ p :: later
      ∧ Forall (λ q, (poll_now q < time_at_submit w + 120000)%Z)
          (earlier ++ [p])
      ∧ candidate_at (capture_baseline (snapshot_of (loaded_page w))) p
        = Some t
      ∧ t ≠ []
      ∧ answer = t ++ FOLLOW_UP_REMINDER.
Proof.
  unfold ask_youmind.
  destruct (is_authenticated w); [|discriminate].
  destruct (ask_session_cases w q u)
    as [(log0 & r & -> & _ & Hr)
       |(a & s & _ & _ & _ & _ & Hredirect & Hinput & ->)].
  { by destruct Hr as [->|[e ->]]. }
  cbn zeta.
  destruct (StealthUtils.realistic_click (loaded_page w) (String a s))
    as [logc [clicked|?]]; [|discriminate].
  destruct (StealthUtils.human_type (loaded_page w) (hesitations w)
              (String a s) q 220 320) as [logt [[]|?]]; [|discriminate].
  destruct (keyboard_press (loaded_page w) "Enter") as [[]|?];
    [|discriminate].
  destruct (poll_loop (capture_baseline (snapshot_of (loaded_page w)))
              (time_at_submit w + 120000) (polls w) initial_state)
    as [log [[result|]|e]] eqn:Hloop; cbn [fst snd]; try discriminate.
  intros [= ->].
  split; [reflexivity|]. split; [exact Hredirect|].
  split; [by eexists|]. split.
  - rewrite !in_app_iff. simpl. tauto.
  - by apply (poll_loop_answer_full _ _ _ initial_state log).
Qed.

Lemma answer_comes_from_a_poll_witness :
  is_authenticated
    (Examples.session Examples.board_url [Examples.hi] true
       Examples.trace_settling) = true
  ∧ redirected_to_sign_in
      (loaded_page
         (Examples.session Examples.board_url [Examples.hi] true
            Examples.trace_settling)) = false
  ∧ (∃ sel,
       _find_input_selector
         (loaded_page
            (Examples.session Examples.board_url [Examples.hi] true
               Examples.trace_settling)) = Ok (Some sel))
  ∧ In (EvKeyPress "Enter")
      (fst (ask_youmind
              (Examples.session Examples.board_url [Examples.hi] true
                 Examples.trace_settling)
              (lit "Why?") Examples.board_url true))
  ∧ ∃ earlier p later t,
      polls
        (Examples.session Examples.board_url [Examples.hi] true
           Examples.trace_settling) = earlier ++ p :: later
      ∧ Forall
          (λ q,
             (poll_now q
              < time_at_submit
                  (Examples.session Examples.board_url [Examples.hi] true
                     Examples.trace_settling) + 120000)%Z)
          (earlier ++ [p])
      ∧ candidate_at
          (capture_baseline
             (snapshot_of
                (loaded_page
                   (Examples.session Examples.board_url [Examples.hi] true
                      Examples.trace_settling)))) p
        = Some t
      ∧ t ≠ []
      ∧ Examples.done_text ++ FOLLOW_UP_REMINDER = t ++ FOLLOW_UP_REMINDER.
Proof.
  apply (answer_comes_from_a_poll
           (Examples.session Examples.board_url [Examples.hi] true
              Examples.trace_settling)
           (lit "Why?") Examples.board_url true
           (Examples.done_text ++ FOLLOW_UP_REMINDER)).
  vm_compute. reflexivity.
Defined.

Lemma realistic_click_quiet (page : Page) (selector : string) :
  Forall no_typing_or_key
    (fst (StealthUtils.realistic_click page selector)).
Proof.
  unfold StealthUtils.realistic_click, StealthUtils._resolve_visible_element.
  destruct (query_selector page selector) as [[el|]|?];
    cbn [mbind Res_bind];
    [destruct (is_visible el) as [[|]|?]| |];
    try destruct (wait_for_selector page selector) as [[el'|]|?];
    cbn; click_cases; by repeat constructor.
Qed.

Lemma click_send_from_quiet (page : Page) (selectors : list string) :
  Forall no_typing_or_key (fst (click_send_from selectors page)).
Proof.
  induction selectors as [|s selectors IH]; simpl; [constructor|].
  pose proof (realistic_click_quiet page s) as Hs.
  destruct (StealthUtils.realistic_click page s) as [log [[|]|e]];
    cbn in *.
  - by rewrite app_nil_r.
  - destruct (click_send_from selectors page) as [log' r].
    apply Forall_app. by split.
  - destruct (click_send_from selectors page) as [log' r].
    rewrite app_nil_r. apply Forall_app. by split.
Qed.

Lemma poll_loop_quiet (b : Baseline) (deadline : Z) (trace : list Poll)
    (st : LoopState) :
  Forall no_typing_or_key (fst (poll_loop b deadline trace st)).
Proof.
  revert st. induction trace as [|p rest IH]; intros st; [constructor|].
  rewrite poll_loop_cons. destruct (poll_now p <? deadline)%Z;
    [|by repeat constructor].
  destruct (stability_step st (candidate_at b p)) as [st'|a];
    [|by repeat constructor].
  specialize (IH st'). destruct (poll_loop b deadline rest st') as [log r].
  by constructor.
Qed.

Lemma type_chars_no_key (element : Element) (hesitate : nat → bool)
    (min_delay max_delay : Z) (text : str) (i : nat) :
  Forall no_key
    (fst (StealthUtils.type_chars element hesitate min_delay max_delay i
            text)).
Proof.
  revert i. induction text as [|c text IH]; intros i; simpl; [constructor|].
  cbn [mbind Run_bind emit call].
  destruct (type_char element c) as [[]|e]; [|by repeat constructor].
  specialize (IH (S i)).
  destruct (StealthUtils.type_chars element hesitate min_delay max_delay
              (S i) text) as [log r].
  destruct (hesitate i); cbn; by repeat constructor.
Qed.

Lemma human_type_no_key (page : Page) (hesitate : nat → bool)
    (selector : string) (text : str) (wpm_min wpm_max : Z) :
  Forall no_key
    (fst (StealthUtils.human_type page hesitate selector text
            wpm_min wpm_max)).
Proof.
  unfold StealthUtils.human_type.
  destruct (StealthUtils._resolve_visible_element page selector)
    as [[el|]|e]; cbn [mbind Run_bind call emit];
    [|by repeat constructor|by repeat constructor].
  pose proof (type_chars_no_key el hesitate (60000 / (wpm_max * 5))
                (60000 / (wpm_min * 5)) text 0) as Ht.
  destruct (StealthUtils.type_chars el hesitate (60000 / (wpm_max * 5))
              (60000 / (wpm_min * 5)) 0 text) as [log r].
  destruct (click el) as [[]|e]; cbn; by repeat constructor.
Qed.

Lemma typed_chars_quiet (log : list Event) :
  Forall no_typing_or_key log → typed_chars log = [].
Proof.
  induction 1 as [|ev log Hev _ IH]; [reflexivity|].
  destruct ev; try done; exact IH.
Qed.

Lemma quiet_no_key (log : list Event) :
  Forall no_typing_or_key log → Forall no_key log.
Proof.
  intros H. eapply Forall_impl; [exact H|]. intros ev. by destruct ev.
Qed.

Lemma no_input_no_key (log : list Event) :
  Forall (λ ev, is_input_event ev = false) log → Forall no_key log.
Proof.
  intros H. eapply Forall_impl; [exact H|]. intros ev. by destruct ev.
Qed.

Lemma no_key_not_in (log : list Event) (key : string) :
  Forall no_key log → ¬ In (EvKeyPress key) log.
Proof.
  intros Hall Hin. rewrite Forall_forall in Hall.
  apply list_elem_of_In in Hin. exact (Hall _ Hin).
Qed.

(** X16: Enter is pressed only once the question stands in the input:
    in every run of [ask_youmind] in which the Enter key is pressed, the
    characters typed in the whole run are exactly those of the question,
    in order, unless [human_type] could not resolve the input element and
    printed its warning, in which case nothing was typed and Enter is
    pressed all the same. *)
Theorem enter_follows_the_typed_question (w : World) (q u : str) (h : bool) :
  In (EvKeyPress "Enter") (fst (ask_youmind w q u h)) →
  typed_chars (fst (ask_youmind w q u h)) = q
  ∨ (typed_chars (fst (ask_youmind w q u h)) = []
     ∧ ∃ sel,
         printed (MsgTypingElementNotFound sel) (fst (ask_youmind w q u h))).
Proof.
  unfold ask_youmind.
  destruct (is_authenticated w);
    [|simpl; intros [H|[]]; discriminate H].
  destruct (finally_events_quiet w) as (_ & Hfinal & _).
  pose proof (quiet_no_key _ Hfinal) as Hfinal_key.
  destruct (ask_session_cases w q u)
    as [(log0 & r & -> & Hquiet & Hr)
       |(a & s & _ & _ & _ & _ & _ & _ & ->)].
  { apply no_input_no_key in Hquiet.
    intros Hin. exfalso.
    destruct Hr as [->|[e ->]]; cbn [fst] in Hin;
      revert Hin; apply no_key_not_in;
      repeat (apply Forall_app; split); try done; by repeat constructor. }
  cbn zeta.
  pose proof (realistic_click_quiet (loaded_page w) (String a s)) as Hclick.
  pose proof (human_type_no_key (loaded_page w) (hesitations w)
                (String a s) q 220 320) as Htype_key.
  pose proof (click_send_from_quiet (submitted_page w)
                Config.SEND_BUTTON_SELECTORS) as Hsend.
  pose proof (poll_loop_quiet
                (capture_baseline (snapshot_of (loaded_page w)))
                (time_at_submit w + 120000) (polls w) initial_state)
    as Hloop.
  destruct (StealthUtils.realistic_click (loaded_page w) (String a s))
    as [logc [clicked|?]]; cbn [fst] in Hclick.
  2:{ intros Hin. exfalso. cbn [fst] in Hin. revert Hin.
      apply no_key_not_in.
      repeat (apply Forall_app; split);
        try done; try (by apply quiet_no_key); by repeat constructor. }
  destruct (StealthUtils.human_type (loaded_page w) (hesitations w)
              (String a s) q 220 320) as [logt [[]|?]] eqn:Htype;
    cbn [fst] in Htype_key.
  2:{ intros Hin. exfalso. cbn [fst] in Hin. revert Hin.
      apply no_key_not_in.
      repeat (apply Forall_app; split);
        try done; try (by apply quiet_no_key); by repeat constructor. }
  destruct (human_type_typed _ _ _ _ _ _ _ _ Htype) as [_ Htyped].
  specialize (Htyped eq_refl).
  assert (∀ log,
            (∃ front back, log = front ++ logt ++ back
                           ∧ typed_chars front = []
                           ∧ typed_chars back = []) →
            typed_chars log = q
            ∨ (typed_chars log = []
               ∧ ∃ sel, printed (MsgTypingElementNotFound sel) log))
    as Hgoal.
  { intros log (front & back & -> & Hfront & Hback).
    rewrite !typed_chars_app, Hfront, Hback, app_nil_r. simpl.
    destruct Htyped as [->|[_ ->]]; [by left|].
    right. split; [reflexivity|]. exists (String a s).
    unfold printed. rewrite !in_app_iff. simpl. tauto. }
  destruct (keyboard_press (loaded_page w) "Enter") as [[]|?].
  2:{ intros _. cbn [fst]. apply Hgoal.
      exists ([EvPrint (MsgAsking q); EvPrint (MsgBoard u)]
              ++ [EvPrint MsgOpeningBoard; EvGoto u;
                  EvPrint (MsgFoundChatInput (String a s))] ++ logc).
      eexists. split; [by rewrite <- !app_assoc|].
      split; rewrite ?typed_chars_app, ?(typed_chars_quiet _ Hclick),
        ?(typed_chars_quiet _ Hsend), ?(typed_chars_quiet _ Hloop),
        ?(typed_chars_quiet _ Hfinal); reflexivity. }
  destruct (poll_loop (capture_baseline (snapshot_of (loaded_page w)))
              (time_at_submit w + 120000) (polls w) initial_state)
    as [logp r]; cbn [fst snd] in *.
  intros _.
  destruct r as [[result|]|e]; cbn [fst]; apply Hgoal;
    exists ([EvPrint (MsgAsking q); EvPrint (MsgBoard u)]
            ++ [EvPrint MsgOpeningBoard; EvGoto u;
                EvPrint (MsgFoundChatInput (String a s))] ++ logc);
    eexists; (split; [by rewrite <- !app_assoc|]);
    split; rewrite ?typed_chars_app, ?(typed_chars_quiet _ Hclick),
        ?(typed_chars_quiet _ Hsend), ?(typed_chars_quiet _ Hloop),
        ?(typed_chars_quiet _ Hfinal); reflexivity.
Qed.

Lemma enter_follows_the_typed_question_witness :
  typed_chars
    (fst (ask_youmind
            (Examples.session Examples.board_url [Examples.hi] true
               Examples.trace_unsettled)
            (lit "Why?") Examples.board_url true)) = lit "Why?"
  ∨ (typed_chars
       (fst (ask_youmind
               (Examples.session Examples.board_url [Examples.hi] true
                  Examples.trace_unsettled)
               (lit "Why?") Examples.board_url true)) = []
     ∧ ∃ sel,
         printed (MsgTypingElementNotFound sel)
           (fst (ask_youmind
                   (Examples.session Examples.board_url [Examples.hi] true
                      Examples.trace_unsettled)
                   (lit "Why?") Examples.board_url true))).
Proof.
  apply (enter_follows_the_typed_question
           (Examples.session Examples.board_url [Examples.hi] true
              Examples.trace_unsettled)
           (lit "Why?") Examples.board_url true).
  vm_compute. repeat (first [left; reflexivity | right]).
Defined.

(** ** Launching the browser *)


(** A state file with one cookie, one that holds a list, none, and one
    whose existence cannot be tested. *)
Example cookie_injection_runs :
  BrowserFactory._inject_cookies Examples.state_with_cookie
    Examples.accepting_context
  = ([BrowserFactory.FeAddCookies
        (BrowserFactory.JArray [Examples.session_cookie])], Ok tt)
  ∧ BrowserFactory._inject_cookies Examples.state_not_an_object
      Examples.accepting_context
    = ([BrowserFactory.FeCouldNotLoadState
          (Exception "AttributeError: object has no attribute 'get'")],
       Ok tt)
  ∧ BrowserFactory._inject_cookies
      {| BrowserFactory.state_exists := Ok false;
         BrowserFactory.state_load := Raise Examples.timeout_error |}
      Examples.accepting_context
    = ([], Ok tt)
  ∧ BrowserFactory.launch_persistent_context
      (Ok Examples.accepting_context) Examples.state_unreachable
    = ([], Raise (Exception
                    "PermissionError: [Errno 13] Permission denied")).
Proof. vm_compute. repeat split. Qed.

(** ** The command line *)

(** X18: how the board URL is chosen. A non-empty [--board-url] is
    returned as it is, without a message. Otherwise a non-empty
    [--board-id] decides alone, also when an active board exists: an id
    the library knows gives the URL of that board, without a message, and
    an id it does not know gives no URL and the not-found message. With
    neither a URL nor an id the result is the URL of the active board, if
    there is one, announced by a message. So whatever URL is returned is
    the given one, or else that of the board with the given id, or else
    that of the active board, in this order of precedence. *)
Theorem board_url_resolution (library : Cli.BoardLibrary)
    (board_url board_id : option str) :
  (∀ c s, board_url = Some (c :: s) →
     Cli._resolve_board_url library board_url board_id
     = ([], Some (c :: s)))
  ∧ (∀ c s board,
       board_url = None ∨ board_url = Some [] →
       board_id = Some (c :: s) →
       Cli.get_board library (c :: s) = Some board →
       Cli._resolve_board_url library board_url board_id
       = ([], Some (Cli.b_url board)))
  ∧ (∀ c s,
       board_url = None ∨ board_url = Some [] →
       board_id = Some (c :: s) →
       Cli.get_board library (c :: s) = None →
       Cli._resolve_board_url library board_url board_id
       = ([Cli.CliBoardNotFound (c :: s)], None))
  ∧ (∀ active,
       board_url = None ∨ board_url = Some [] →
       board_id = None ∨ board_id = Some [] →
       Cli.get_active_board library = Some active →
       Cli._resolve_board_url library board_url board_id
       = ([Cli.CliUsingActiveBoard (Cli.b_name active)],
          Some (Cli.b_url active)))
  ∧ (∀ messages url,
       Cli._resolve_board_url library board_url board_id
         = (messages, Some url) →
       (board_url = Some url ∧ url ≠ [] ∧ messages = [])
       ∨ ((board_url = None ∨ board_url = Some [])
          ∧ ∃ id board,
              board_id = Some id
              ∧ id ≠ []
              ∧ Cli.get_board library id = Some board
              ∧ Cli.b_url board = url
              ∧ messages = [])
       ∨ ((board_url = None ∨ board_url = Some [])
          ∧ (board_id = None ∨ board_id = Some [])
          ∧ ∃ board,
              Cli.get_active_board library = Some board
              ∧ Cli.b_url board = url
              ∧ messages = [Cli.CliUsingActiveBoard (Cli.b_name board)]))
  ∧ (board_url = None ∨ board_url = Some [] →
     board_id = None ∨ board_id = Some [] →
     snd (Cli._resolve_board_url library board_url board_id)
     = Cli.b_url <$> Cli.get_active_board library).
Proof.
  split; [|split; [|split; [|split; [|split]]]].
  - intros c s H. subst. reflexivity.
  - intros c s board Hurl Hid Hknown. subst. unfold Cli._resolve_board_url.
    rewrite Hknown. by destruct Hurl as [->| ->].
  - intros c s Hurl Hid Hnone. subst. unfold Cli._resolve_board_url.
    rewrite Hnone. by destruct Hurl as [->| ->].
  - intros active Hurl Hid Hactive. unfold Cli._resolve_board_url.
    rewrite Hactive. by destruct Hurl as [->| ->], Hid as [->| ->].
  - intros messages url. unfold Cli._resolve_board_url.
    destruct board_url as [[|c s]|], board_id as [[|c' s']|];
      repeat match goal with
        | |- context [Cli.get_board library ?i] =>
            destruct (Cli.get_board library i) eqn:?
        | |- context [Cli.get_active_board library] =>
            destruct (Cli.get_active_board library) eqn:?
        | |- context [Cli.list_boards library] =>
            destruct (Cli.list_boards library) eqn:?
        end;
      intros [= <- <-];
      first
        [ by left
        | right; left; split; [by auto|]; eexists _, _; by repeat split
        | right; right; split; [by auto|]; split; [by auto|];
          eexists; by repeat split ].
  - intros Hurl Hid. unfold Cli._resolve_board_url.
    destruct Hurl as [->| ->], Hid as [->| ->];
      destruct (Cli.get_active_board library); try reflexivity;
      by destruct (Cli.list_boards library).
Qed.

(** With the example library, whose active board is the second one: a
    known id gives the URL of its board, not of the active one. *)
Example known_id_beats_active_board :
  Cli.get_active_board Examples.library = Some Examples.board_two
  ∧ Cli._resolve_board_url Examples.library None (Some (lit "b1"))
    = ([], Some (Cli.b_url Examples.board_one)).
Proof. vm_compute. repeat split. Qed.

(** With the example library: an unknown id falls back to nothing, no id
    falls back to the active board. *)
Example board_url_resolution_runs :
  Cli._resolve_board_url Examples.library None (Some (lit "b9"))
  = ([Cli.CliBoardNotFound (lit "b9")], None)
  ∧ Cli._resolve_board_url Examples.library None None
    = ([Cli.CliUsingActiveBoard (lit "Notes")],
       Some (lit "https://youmind.com/boards/b2"))
  ∧ Cli._resolve_board_url Examples.library (Some []) (Some (lit "b1"))
    = ([], Some Examples.board_url).
Proof. vm_compute. repeat split. Qed.

Lemma resolve_messages_only (library : Cli.BoardLibrary)
    (board_url board_id : option str) :
  ∀ messages url,
    Cli._resolve_board_url library board_url board_id = (messages, url) →
    Forall (λ ev, ∃ m, ev = Cli.Cli m) (map Cli.Cli messages).
Proof.
  intros messages url _. induction messages as [|m messages IH];
    constructor; [by eexists | exact IH].
Qed.

Lemma main_parsed_status (library : Cli.BoardLibrary) (w : World)
    (args : Cli.Args) (log : list Cli.CliEvent) (status : Z) :
  Cli.main library w (Cli.ParsedArgs args) = (log, Some status) →
  (status = 0%Z ∨ status = 1%Z)
  ∧ (status = 0%Z ↔
     ∃ url answer,
       snd (Cli._resolve_board_url library (Cli.arg_board_url args)
              (Cli.arg_board_id args)) = Some url
       ∧ url ≠ []
       ∧ snd (ask_youmind w (Cli.arg_question args) url
                (negb (Cli.arg_show_browser args)))
         = Returned (Some answer)
       ∧ last log
         = Some (Cli.Cli (Cli.CliAnswer (Cli.arg_question args) answer)))
  ∧ ((snd (Cli._resolve_board_url library (Cli.arg_board_url args)
             (Cli.arg_board_id args)) = None
      ∨ snd (Cli._resolve_board_url library (Cli.arg_board_url args)
               (Cli.arg_board_id args)) = Some []) →
     status = 1%Z ∧ Forall (λ ev, ∃ m, ev = Cli.Cli m) log).
Proof.
  unfold Cli.main.
  destruct (Cli._resolve_board_url library (Cli.arg_board_url args)
              (Cli.arg_board_id args)) as [messages [[|c s]|]] eqn:Hres;
    cbn [snd].
  - intros [= <- <-]. split; [by right|]. split.
    + split; [discriminate|]. by intros (url & answer & [= <-] & Hne & _).
    + intros _. split; [reflexivity|]. by eapply resolve_messages_only.
  - destruct (ask_youmind w (Cli.arg_question args) (c :: s)
                (negb (Cli.arg_show_browser args)))
      as [slog outcome] eqn:Hask.
    assert (∀ answer, outcome = Returned (Some answer) → answer ≠ [])
      as Hnonempty.
    { intros answer ->.
      assert (snd (ask_youmind w (Cli.arg_question args) (c :: s)
                     (negb (Cli.arg_show_browser args)))
              = Returned (Some answer)) as Hsnd by (by rewrite Hask).
      apply ask_youmind_answer in Hsnd
        as (_ & _ & _ & _ & ? & ? & ? & t & _ & _ & _ & Ht & ->).
      by destruct t. }
    destruct outcome as [[[|c' s']|]|]; [| | |discriminate].
    + by specialize (Hnonempty [] eq_refl).
    + intros [= <- <-]. split; [by left|]. split.
      * split; [|reflexivity]. intros _. exists (c :: s), (c' :: s').
        split; [reflexivity|]. split; [discriminate|].
        split; [by rewrite Hask|]. by rewrite !app_assoc, last_snoc.
      * intros [H|H]; discriminate H.
    + intros [= <- <-]. split; [by right|]. split.
      * split; [discriminate|].
        intros (url & answer & [= <-] & _ & H & _).
        rewrite Hask in H. discriminate H.
      * intros [H|H]; discriminate H.
  - intros [= <- <-]. split; [by right|]. split.
    + split; [discriminate|]. by intros (url & answer & H & _).
    + intros _. split; [reflexivity|]. by eapply resolve_messages_only.
Qed.

(** X19: the status the program exits with. It is 2 exactly when
    [parse_args] met a usage error, and 0 after the help text; in both
    cases [parse_args] leaves the program before a board is resolved or
    a browser started. With parsed arguments the status is 0 or 1: 0
    exactly when a non-empty board URL was resolved and [ask_youmind]
    returned an answer for it, and then the answer is the last thing
    printed; 1 in every other run that ends. A URL outside the board
    prefix is asked all the same. When no board URL is resolved the
    browser is never started: the run consists of the resolution messages
    only. *)
Theorem main_exit_status (library : Cli.BoardLibrary) (w : World)
    (command_line : Cli.CommandLine) (log : list Cli.CliEvent)
    (status : Z) :
  Cli.main library w command_line = (log, Some status) →
  (status = 0%Z ∨ status = 1%Z ∨ status = 2%Z)
  ∧ (status = 2%Z ↔ command_line = Cli.UsageError)
  ∧ (status = 0%Z ↔
     command_line = Cli.HelpRequested
     ∨ ∃ args url answer,
         command_line = Cli.ParsedArgs args
         ∧ snd (Cli._resolve_board_url library (Cli.arg_board_url args)
                  (Cli.arg_board_id args)) = Some url
         ∧ url ≠ []
         ∧ snd (ask_youmind w (Cli.arg_question args) url
                  (negb (Cli.arg_show_browser args)))
           = Returned (Some answer)
         ∧ last log
           = Some (Cli.Cli (Cli.CliAnswer (Cli.arg_question args) answer)))
  ∧ (command_line = Cli.HelpRequested ∨ command_line = Cli.UsageError →
     ∃ m, log = [Cli.Cli m])
  ∧ (∀ args,
       command_line = Cli.ParsedArgs args →
       (status = 0%Z ∨ status = 1%Z)
       ∧ ((snd (Cli._resolve_board_url library (Cli.arg_board_url args)
                  (Cli.arg_board_id args)) = None
           ∨ snd (Cli._resolve_board_url library (Cli.arg_board_url args)
                    (Cli.arg_board_id args)) = Some []) →
          status = 1%Z ∧ Forall (λ ev, ∃ m, ev = Cli.Cli m) log)).
Proof.
  destruct command_line as [args| |].
  - intros Hrun.
    destruct (main_parsed_status library w args log status Hrun)
      as (Hstatus & Hzero & Hunresolved).
    split; [destruct Hstatus; auto|].
    split; [split; [destruct Hstatus; lia | discriminate]|].
    split.
    { rewrite Hzero. split.
      - intros (url & answer & H). right. by exists args, url, answer.
      - intros [H|(args' & url & answer & [= <-] & H)]; [discriminate H|].
        by exists url, answer. }
    split; [intros [H|H]; discriminate H|].
    intros args' [= <-]. by split.
  - intros [= <- <-].
    split; [by left|]. split; [split; discriminate|].
    split; [split; [by left | reflexivity]|].
    split; [intros _; by eexists|]. intros args H. discriminate H.
  - intros [= <- <-].
    split; [by right; right|]. split; [split; reflexivity|].
    split.
    { split; [discriminate|].
      intros [H|(args & url & answer & H & _)]; discriminate H. }
    split; [intros _; by eexists|]. intros args H. discriminate H.
Qed.

Lemma main_exit_status_witness :
  (0 = 0 ∨ 0 = 1 ∨ 0 = 2)%Z
  ∧ (0%Z = 2%Z ↔ Cli.ParsedArgs Examples.ask_b1 = Cli.UsageError)
  ∧ (0%Z = 0%Z ↔
     Cli.ParsedArgs Examples.ask_b1 = Cli.HelpRequested
     ∨ ∃ args url answer,
         Cli.ParsedArgs Examples.ask_b1 = Cli.ParsedArgs args
         ∧ snd (Cli._resolve_board_url Examples.library
                  (Cli.arg_board_url args) (Cli.arg_board_id args))
           = Some url
         ∧ url ≠ []
         ∧ snd (ask_youmind
                  (Examples.session Examples.board_url [Examples.hi] true
                     Examples.trace_settling)
                  (Cli.arg_question args) url
                  (negb (Cli.arg_show_browser args)))
           = Returned (Some answer)
         ∧ last (fst (Cli.main Examples.library
                        (Examples.session Examples.board_url [Examples.hi]
                           true Examples.trace_settling)
                        (Cli.ParsedArgs Examples.ask_b1)))
           = Some (Cli.Cli (Cli.CliAnswer (Cli.arg_question args) answer)))
  ∧ (Cli.ParsedArgs Examples.ask_b1 = Cli.HelpRequested
     ∨ Cli.ParsedArgs Examples.ask_b1 = Cli.UsageError →
     ∃ m,
       fst (Cli.main Examples.library
              (Examples.session Examples.board_url [Examples.hi] true
                 Examples.trace_settling)
              (Cli.ParsedArgs Examples.ask_b1))
       = [Cli.Cli m])
  ∧ (∀ args,
       Cli.ParsedArgs Examples.ask_b1 = Cli.ParsedArgs args →
       (0 = 0 ∨ 0 = 1)%Z
       ∧ ((snd (Cli._resolve_board_url Examples.library
                  (Cli.arg_board_url args) (Cli.arg_board_id args)) = None
           ∨ snd (Cli._resolve_board_url Examples.library
                    (Cli.arg_board_url args) (Cli.arg_board_id args))
             = Some []) →
          0%Z = 1%Z
          ∧ Forall (λ ev, ∃ m, ev = Cli.Cli m)
              (fst (Cli.main Examples.library
                      (Examples.session Examples.board_url [Examples.hi]
                         true Examples.trace_settling)
                      (Cli.ParsedArgs Examples.ask_b1))))).
Proof.
  apply (main_exit_status Examples.library
           (Examples.session Examples.board_url [Examples.hi] true
              Examples.trace_settling)
           (Cli.ParsedArgs Examples.ask_b1)).
  vm_compute. reflexivity.
Defined.

(** The three ways the program ends without a failure of the session:
    the help text, a usage error, and an answer. *)
Example main_runs :
  Cli.main Examples.library
    (Examples.session Examples.board_url [Examples.hi] true
       Examples.trace_settling)
    Cli.HelpRequested
  = ([Cli.Cli Cli.CliHelp], Some 0%Z)
  ∧ Cli.main Examples.library
      (Examples.session Examples.board_url [Examples.hi] true
         Examples.trace_settling)
      Cli.UsageError
    = ([Cli.Cli Cli.CliUsageError], Some 2%Z)
  ∧ snd (Cli.main Examples.library
           (Examples.session Examples.board_url [Examples.hi] true
              Examples.trace_settling)
           (Cli.ParsedArgs Examples.ask_b1))
    = Some 0%Z
  ∧ snd (Cli.main Examples.library
           (Examples.session Examples.sign_in_url [Examples.hi] true
              Examples.trace_settling)
           (Cli.ParsedArgs Examples.ask_b1))
    = Some 1%Z.
Proof. vm_compute. repeat split. Qed.
